(** * nanotemp: tracked temporary files and directories

    A shallow embedding of [src/index.ts].  The module keeps four
    process-wide variables ([tracking], [exitListenerAttached],
    [filesToDelete], [dirsToDelete]); every function below threads them
    explicitly through a [World] that also records what the code asks of
    its collaborators (the listeners added to the process "exit" event, the
    removal requests handed to rimraf, the console warnings, the disk).

    Synchronous functions are computations in a small state-and-exception
    monad.  Asynchronous functions are split where the source splits them:
    the part that runs when the function is called, and the callback that
    runs when a collaborator reports completion. *)

From Stdlib Require Import List String Ascii Bool Arith ZArith Lia.
From Stdlib Require Import PrimFloat DecimalString.
Import ListNotations.
Local Open Scope string_scope.

(** ** JavaScript values that reach the entry points *)

Record Error := mkError { message : string }.

Inductive Result (A : Type) : Type :=
| Ret (a : A)
| Throw (e : Error).
Arguments Ret {A} a.
Arguments Throw {A} e.

(** What a caller can pass as [rawAffixes] or to [track]: JavaScript is
    untyped at run time, so every kind of value is present.  An object
    (an array, a date, ... included) is seen through the three properties
    that the module reads from it; each holds any value, and a property the
    object does not have reads as [undefined]. *)
Inductive JsValue :=
| JUndefined
| JNull
| JBoolean (b : bool)
| JNumber (x : float)
| JBigInt (z : Z)
| JString (s : string)
| JSymbol
| JFunction
| JObject (prefix suffix dir : JsValue).

(** The object [affixes] inside [parseAffixes] and [generateName].  The
    interface declares three optional strings; nothing checks that at run
    time. *)
Record AffixOptions := mkAffixOptions {
  affix_prefix : JsValue;
  affix_suffix : JsValue;
  affix_dir : JsValue }.

Inductive JsType :=
| TUndefined | TObject | TBoolean | TNumber | TBigInt | TString | TSymbol
| TFunction.

(** The [typeof] operator ([typeof null] is ["object"]). *)
Definition typeof (v : JsValue) : JsType :=
  match v with
  | JUndefined => TUndefined
  | JNull => TObject
  | JBoolean _ => TBoolean
  | JNumber _ => TNumber
  | JBigInt _ => TBigInt
  | JString _ => TString
  | JSymbol => TSymbol
  | JFunction => TFunction
  | JObject _ _ _ => TObject
  end.

(** The condition of [if (v)]: [undefined], [null], [false], [0], [-0],
    [NaN], [0n] and the empty string are the falsy values. *)
Definition ToBoolean (v : JsValue) : bool :=
  match v with
  | JUndefined | JNull => false
  | JBoolean b => b
  | JNumber x => negb (PrimFloat.eqb x 0%float || negb (PrimFloat.eqb x x))
  | JBigInt z => negb (Z.eqb z 0)
  | JString s => negb (String.eqb s "")
  | JSymbol | JFunction | JObject _ _ _ => true
  end.

(** [v !== false]. *)
Definition strictNeqFalse (v : JsValue) : bool :=
  match v with
  | JBoolean false => false
  | _ => true
  end.

(** An optional string argument as the value it is. *)
Definition optionalString (o : option string) : JsValue :=
  match o with
  | Some s => JString s
  | None => JUndefined
  end.

(** The TypeError of [ToString] on a symbol. *)
Definition symbolToString : Error :=
  mkError "Cannot convert a Symbol value to a string".

Definition numberToString (n : nat) : string :=
  NilZero.string_of_uint (Nat.to_uint n).

(** ** Name generation *)

Record DateParts := mkDate { getFullYear : nat; getMonth : nat; getDate : nat }.

Definition unknownAffix : Error :=
  mkError "Unknown affix declaration: [object Object]".

Definition parseAffixes (rawAffixes : JsValue) (defaultPrefix : option string)
  : Result AffixOptions :=
  let affixes := mkAffixOptions JUndefined JUndefined JUndefined in
  if ToBoolean rawAffixes then
    match typeof rawAffixes, rawAffixes with
    | TString, JString s =>
        Ret (mkAffixOptions (JString s) (affix_suffix affixes) (affix_dir affixes))
    | TObject, JObject prefix suffix dir => Ret (mkAffixOptions prefix suffix dir)
    | _, _ => Throw unknownAffix
    end
  else
    Ret (mkAffixOptions (optionalString defaultPrefix)
                        (affix_suffix affixes) (affix_dir affixes)).

Section NameGenerator.

(** [path.join], the module variable [dir], and the three sources of
    freshness read by [generateName]: the clock, the process id and the
    base-36 rendering of the random number. *)
Variable path_join : string -> string -> string.
Variable dir : string.
Variable now : DateParts.
Variable pid : nat.
Variable random36 : string.

(** What the language makes of [ToString] on a number, a function or an
    object (the number's digits, the function's text, the object's own
    [toString], which may throw), and the TypeError with which [path.join]
    refuses an argument that is not a string. *)
Variable ToStringOther : JsValue -> Result string.
Variable pathArgError : JsValue -> Error.

Definition ToString (v : JsValue) : Result string :=
  match v with
  | JUndefined => Ret "undefined"
  | JNull => Ret "null"
  | JBoolean true => Ret "true"
  | JBoolean false => Ret "false"
  | JBigInt z => Ret (NilZero.string_of_int (Z.to_int z))
  | JString s => Ret s
  | JSymbol => Throw symbolToString
  | JNumber _ | JFunction | JObject _ _ _ => ToStringOther v
  end.

(** An element of an array under [Array.prototype.join]: [undefined] and
    [null] contribute the empty string, anything else its [ToString]. *)
Definition joinItem (v : JsValue) : Result string :=
  match v with
  | JUndefined | JNull => Ret ""
  | _ => ToString v
  end.

(** [affixes.dir || dir] *)
Definition dirOrDefault (affixes : AffixOptions) : JsValue :=
  if ToBoolean (affix_dir affixes) then affix_dir affixes else JString dir.

Definition generateName (rawAffixes : JsValue) (defaultPrefix : option string)
  : Result string :=
  match parseAffixes rawAffixes defaultPrefix with
  | Throw e => Throw e
  | Ret affixes =>
      match joinItem (affix_prefix affixes) with
      | Throw e => Throw e
      | Ret prefix =>
          match joinItem (affix_suffix affixes) with
          | Throw e => Throw e
          | Ret suffix =>
              let name :=
                String.concat ""
                  [ prefix;
                    numberToString (getFullYear now);
                    numberToString (getMonth now);
                    numberToString (getDate now);
                    "-";
                    numberToString pid;
                    "-";
                    random36;
                    suffix ] in
              match dirOrDefault affixes with
              | JString d => Ret (path_join d name)
              | v => Throw (pathArgError v)
              end
          end
      end
  end.

End NameGenerator.

(** ** What the cleanup functions hand back *)

(** What a cleanup function hands back where the source has a count:
    [false] when not tracking, [undefined] where an argument or a property
    was left out. *)
Inductive JsCount :=
| CntUndefined
| CntFalse
| Cnt (n : nat).

(** [interface Stats]; the fields hold whatever the two drains produced. *)
Record Stats := mkStats { files : JsCount; dirs : JsCount }.

Inductive FalseOr (A : Type) : Type :=
| JsFalse
| Val (a : A).
Arguments JsFalse {A}.
Arguments Val {A} a.

(** One invocation of the callback given to [cleanupFiles] or
    [cleanupDirs]; [callback(err)] leaves the count [undefined]. *)
Record DrainCall := mkDrainCall {
  drain_err : option Error;
  drain_count : JsCount }.

(** One invocation of the callback given to [cleanup]; [None] is a missing
    second argument. *)
Record CleanupCall := mkCleanupCall {
  cleanup_err : option Error;
  cleanup_result : option Stats }.

(** The variables [count] and [left] that a drain shares with its
    [rimrafCallback]. *)
Record Drain := mkDrain { count : nat; left : nat }.

(** How a call to [cleanupFiles] or [cleanupDirs] ends: the callback was
    invoked before the function returned, or removals are in flight. *)
Inductive Started :=
| CalledBack (c : DrainCall)
| InFlight (d : Drain).

Definition notTracking : Error := mkError "not tracking".

(** What calling a callback comes to for the code that calls it: the
    callback returns, or it throws and the statements after the call are
    not reached. *)
Inductive Outcome :=
| Returns
| Throws.

(** A callback that returns whatever it is called with.  The
    [promiseCallback] made by [promisify] is one: all it does is hand a
    function to [process.nextTick]. *)
Definition alwaysReturns {C : Type} (c : C) : Outcome := Returns.


(** ** The process state *)

(** A request made to rimraf: [rimraf.sync(p)] or [rimraf(p, cb)]. *)
Inductive Removal :=
| RimrafSync (p : string)
| Rimraf (p : string).

Section Process.

Context {Disk : Type}.

Record World := mkWorld {
  tracking : bool;
  exitListenerAttached : bool;
  filesToDelete : list string;
  dirsToDelete : list string;
  exitListeners : nat;
  removals : list Removal;
  warnings : list Error;
  disk : Disk }.

(** The state right after the module is loaded. *)
Definition initial (d : Disk) : World :=
  mkWorld false false [] [] 0 [] [] d.

Definition set_tracking (b : bool) (w : World) : World :=
  mkWorld b (exitListenerAttached w) (filesToDelete w) (dirsToDelete w)
          (exitListeners w) (removals w) (warnings w) (disk w).

Definition set_exitListenerAttached (b : bool) (w : World) : World :=
  mkWorld (tracking w) b (filesToDelete w) (dirsToDelete w)
          (exitListeners w) (removals w) (warnings w) (disk w).

Definition set_filesToDelete (l : list string) (w : World) : World :=
  mkWorld (tracking w) (exitListenerAttached w) l (dirsToDelete w)
          (exitListeners w) (removals w) (warnings w) (disk w).

Definition set_dirsToDelete (l : list string) (w : World) : World :=
  mkWorld (tracking w) (exitListenerAttached w) (filesToDelete w) l
          (exitListeners w) (removals w) (warnings w) (disk w).

(** [process.addListener("exit", ...)] *)
Definition addExitListener (w : World) : World :=
  mkWorld (tracking w) (exitListenerAttached w) (filesToDelete w)
          (dirsToDelete w) (S (exitListeners w)) (removals w) (warnings w)
          (disk w).

Definition request (r : Removal) (w : World) : World :=
  mkWorld (tracking w) (exitListenerAttached w) (filesToDelete w)
          (dirsToDelete w) (exitListeners w) (removals w ++ [r])
          (warnings w) (disk w).

(** [console.warn] *)
Definition warn (e : Error) (w : World) : World :=
  mkWorld (tracking w) (exitListenerAttached w) (filesToDelete w)
          (dirsToDelete w) (exitListeners w) (removals w)
          (warnings w ++ [e]) (disk w).

Definition set_disk (d : Disk) (w : World) : World :=
  mkWorld (tracking w) (exitListenerAttached w) (filesToDelete w)
          (dirsToDelete w) (exitListeners w) (removals w) (warnings w) d.

(** Synchronous code: a result or an exception, and the world as the
    code left it (assignments made before a [throw] stay). *)
Definition M (A : Type) : Type := World -> Result A * World.

Definition ret {A} (a : A) : M A := fun w => (Ret a, w).

Definition bind {A B} (m : M A) (k : A -> M B) : M B :=
  fun w =>
    match m w with
    | (Ret a, w') => k a w'
    | (Throw e, w') => (Throw e, w')
    end.

Definition throw {A} (e : Error) : M A := fun w => (Throw e, w).

Definition modify (f : World -> World) : M unit := fun w => (Ret tt, f w).

(** ** Tracking flag and registration *)

(** [function track(value: boolean = true)]: the default applies to an
    absent or [undefined] argument only. *)
Definition track (value : JsValue) (w : World) : World :=
  let value :=
    match value with
    | JUndefined => JBoolean true
    | v => v
    end in
  set_tracking (strictNeqFalse value) w.

Definition attachExitListener (w : World) : World :=
  if negb (tracking w) then w
  else if negb (exitListenerAttached w)
       then set_exitListenerAttached true (addExitListener w)
       else w.

Definition deleteFileOnExit (filePath : string) (w : World) : World :=
  if negb (tracking w) then w
  else
    let w := attachExitListener w in
    set_filesToDelete (filesToDelete w ++ [filePath]) w.

Definition deleteDirOnExit (dirPath : string) (w : World) : World :=
  if negb (tracking w) then w
  else
    let w := attachExitListener w in
    set_dirsToDelete (dirsToDelete w ++ [dirPath]) w.

(** ** Collaborators that run synchronously

    [rimraf.sync], [mkdirp.sync] and [fs.openSync] either complete or
    throw; each may change the disk either way. *)
Variable rimrafSync : string -> Disk -> option Error * Disk.
Variable mkdirpSync : string -> Disk -> option Error * Disk.
Variable fsOpenSync : string -> Disk -> (Error + nat) * Disk.

(** ** Synchronous cleanup *)

Definition callRimrafSync (p : string) : M unit :=
  fun w =>
    let w := request (RimrafSync p) w in
    match rimrafSync p (disk w) with
    | (Some e, d) => (Throw e, set_disk d w)
    | (None, d) => (Ret tt, set_disk d w)
    end.

(** The loop [while ((toDelete = filesToDelete.shift()) !== undefined)].
    The list holds strings only, so [shift] yields [undefined] exactly
    when it is empty; [pending] is the list as the loop test finds it,
    and each iteration stores the tail back before calling rimraf. *)
Fixpoint shiftFiles (pending : list string) (count : nat) : M nat :=
  match pending with
  | [] => ret count
  | toDelete :: rest =>
      bind (modify (set_filesToDelete rest)) (fun _ =>
      bind (callRimrafSync toDelete) (fun _ =>
      shiftFiles rest (S count)))
  end.

Definition cleanupFilesSync : M JsCount :=
  fun w =>
    if negb (tracking w) then (Ret CntFalse, w)
    else bind (shiftFiles (filesToDelete w) 0) (fun count => ret (Cnt count)) w.

Fixpoint shiftDirs (pending : list string) (count : nat) : M nat :=
  match pending with
  | [] => ret count
  | toDelete :: rest =>
      bind (modify (set_dirsToDelete rest)) (fun _ =>
      bind (callRimrafSync toDelete) (fun _ =>
      shiftDirs rest (S count)))
  end.

Definition cleanupDirsSync : M JsCount :=
  fun w =>
    if negb (tracking w) then (Ret CntFalse, w)
    else bind (shiftDirs (dirsToDelete w) 0) (fun count => ret (Cnt count)) w.

Definition cleanupSync : M (FalseOr Stats) :=
  fun w =>
    if negb (tracking w) then (Ret JsFalse, w)
    else
      bind cleanupFilesSync (fun fileCount =>
      bind cleanupDirsSync (fun dirCount =>
      ret (Val (mkStats fileCount dirCount)))) w.

(** The function given to [process.addListener("exit", ...)]. *)
Definition exitListener : M unit :=
  fun w =>
    match cleanupSync w with
    | (Ret _, w') => (Ret tt, w')
    | (Throw err, w') => (Throw err, warn err w')
    end.

(** ** Asynchronous cleanup

    Each function receives the callback normalised by [promisify]; what
    is modelled is every invocation of that callback.  rimraf reports a
    removal by calling [rimrafCallback] later, from the event loop.

    The callback is the caller's code and may throw.  Where the source goes
    on to change the module or a drain after calling it, the functions
    below are told whether the call returns ([Outcome]); where the call is
    the last thing done, a throw leaves nothing undone and only travels up
    to whoever called in. *)

(** The dispatch loop of [cleanupFiles]: every entry is shifted off and
    handed to rimraf. *)
Fixpoint dispatchFiles (pending : list string) (w : World) : World :=
  match pending with
  | [] => w
  | toDelete :: rest =>
      dispatchFiles rest (request (Rimraf toDelete) (set_filesToDelete rest w))
  end.

Definition cleanupFiles (w : World) : Started * World :=
  if negb (tracking w) then
    (CalledBack (mkDrainCall (Some notTracking) CntUndefined), w)
  else
    let count := 0 in
    let left := List.length (filesToDelete w) in
    if (left =? 0)%nat then (CalledBack (mkDrainCall None (Cnt count)), w)
    else (InFlight (mkDrain count left), dispatchFiles (filesToDelete w) w).

(** [rimrafCallback] inside [cleanupFiles], for a [callback] of which is
    known when it throws.  On an error the source runs [callback(err)]
    and then [left = 0]: when the callback throws, the assignment is not
    reached.  On the last success [left] is decremented before the call. *)
Definition cleanupFiles_rimrafCallback (callback : DrainCall -> Outcome)
           (err : option Error) (d : Drain) : option DrainCall * Drain :=
  if (left d =? 0)%nat then (None, d)
  else
    match err with
    | Some e =>
        let call := mkDrainCall (Some e) CntUndefined in
        match callback call with
        | Returns => (Some call, mkDrain (count d) 0)
        | Throws => (Some call, d)
        end
    | None =>
        let count := S (count d) in
        let left := left d - 1 in
        if (left =? 0)%nat then (Some (mkDrainCall None (Cnt count)), mkDrain count left)
        else (None, mkDrain count left)
    end.

Fixpoint dispatchDirs (pending : list string) (w : World) : World :=
  match pending with
  | [] => w
  | toDelete :: rest =>
      dispatchDirs rest (request (Rimraf toDelete) (set_dirsToDelete rest w))
  end.

Definition cleanupDirs (w : World) : Started * World :=
  if negb (tracking w) then
    (CalledBack (mkDrainCall (Some notTracking) CntUndefined), w)
  else
    let count := 0 in
    let left := List.length (dirsToDelete w) in
    if (left =? 0)%nat then (CalledBack (mkDrainCall None (Cnt count)), w)
    else (InFlight (mkDrain count left), dispatchDirs (dirsToDelete w) w).

(** [rimrafCallback] inside [cleanupDirs]; [callback(err, count)] comes
    before [left = 0] here too. *)
Definition cleanupDirs_rimrafCallback (callback : DrainCall -> Outcome)
           (err : option Error) (d : Drain) : option DrainCall * Drain :=
  if (left d =? 0)%nat then (None, d)
  else
    match err with
    | Some e =>
        let call := mkDrainCall (Some e) (Cnt (count d)) in
        match callback call with
        | Returns => (Some call, mkDrain (count d) 0)
        | Throws => (Some call, d)
        end
    | None =>
        let count := S (count d) in
        let left := left d - 1 in
        if (left =? 0)%nat then (Some (mkDrainCall None (Cnt count)), mkDrain count left)
        else (None, mkDrain count left)
    end.

(** Removal reports reaching a [rimrafCallback] one after the other, in
    whatever order rimraf delivers them. *)
Fixpoint deliver (rimrafCallback : option Error -> Drain -> option DrainCall * Drain)
         (reports : list (option Error)) (d : Drain) : list DrainCall * Drain :=
  match reports with
  | [] => ([], d)
  | err :: rest =>
      let (c, d1) := rimrafCallback err d in
      let (cs, d2) := deliver rimrafCallback rest d1 in
      (match c with Some c => c :: cs | None => cs end, d2)
  end.

(** *** The combined [cleanup]

    [cleanup] chains the two drains through nested callbacks.  The
    closures alive while it runs are the file drain, the [fileCount]
    captured by the inner callback, and the directory drain; a drain that
    was never dispatched has nothing left. *)
Record Task := mkTask {
  fileDrain : Drain;
  fileCount : JsCount;
  dirDrain : Drain }.

Definition idle : Task := mkTask (mkDrain 0 0) CntUndefined (mkDrain 0 0).

(** [function (dirErr, dirCount) { callback(dirErr, {files, dirs}) }] *)
Definition cleanup_dirsCallback (fileCount : JsCount) (c : DrainCall)
  : CleanupCall :=
  mkCleanupCall (drain_err c) (Some (mkStats fileCount (drain_count c))).

(** Whether [function (fileErr, fileCount) { ... }] throws: it does when
    the call of [callback] that it makes, itself or through [cleanupDirs],
    throws. *)
Definition cleanup_filesCallback_outcome (callback : CleanupCall -> Outcome)
           (c : DrainCall) (w : World) : Outcome :=
  match drain_err c with
  | Some fileErr =>
      callback (mkCleanupCall (Some fileErr) (Some (mkStats (drain_count c) CntUndefined)))
  | None =>
      match cleanupDirs w with
      | (CalledBack dc, _) => callback (cleanup_dirsCallback (drain_count c) dc)
      | (InFlight _, _) => Returns
      end
  end.

(** [function (fileErr, fileCount) { ... }] *)
Definition cleanup_filesCallback (c : DrainCall) (t : Task) (w : World)
  : list CleanupCall * Task * World :=
  match drain_err c with
  | Some fileErr =>
      ([mkCleanupCall (Some fileErr) (Some (mkStats (drain_count c) CntUndefined))],
       t, w)
  | None =>
      match cleanupDirs w with
      | (CalledBack dc, w') => ([cleanup_dirsCallback (drain_count c) dc], t, w')
      | (InFlight d, w') => ([], mkTask (fileDrain t) (drain_count c) d, w')
      end
  end.

Definition cleanup (w : World) : list CleanupCall * Task * World :=
  if negb (tracking w) then
    ([mkCleanupCall (Some notTracking) None], idle, w)
  else
    match cleanupFiles w with
    | (CalledBack c, w') => cleanup_filesCallback c idle w'
    | (InFlight d, w') => ([], mkTask d CntUndefined (mkDrain 0 0), w')
    end.

(** A removal report arriving while a [cleanup] is pending. *)
Inductive Report :=
| FileRemoval (err : option Error)
| DirRemoval (err : option Error).

Definition cleanup_report (callback : CleanupCall -> Outcome)
           (r : Report) (t : Task) (w : World)
  : list CleanupCall * Task * World :=
  match r with
  | FileRemoval err =>
      let (c, d) :=
        cleanupFiles_rimrafCallback
          (fun c => cleanup_filesCallback_outcome callback c w) err (fileDrain t) in
      let t := mkTask d (fileCount t) (dirDrain t) in
      match c with
      | Some c => cleanup_filesCallback c t w
      | None => ([], t, w)
      end
  | DirRemoval err =>
      let (c, d) :=
        cleanupDirs_rimrafCallback
          (fun c => callback (cleanup_dirsCallback (fileCount t) c)) err (dirDrain t) in
      let t := mkTask (fileDrain t) (fileCount t) d in
      match c with
      | Some c => ([cleanup_dirsCallback (fileCount t) c], t, w)
      | None => ([], t, w)
      end
  end.

(** ** Resource factories *)

Variable path_join : string -> string -> string.
Variable dir : string.
Variable ToStringOther : JsValue -> Result string.
Variable pathArgError : JsValue -> Error.

(** One invocation of the callback of [mkdir] / of [open]. *)
Record MkdirCall := mkMkdirCall {
  mkdir_err : option Error;
  mkdir_dirPath : string }.

Record OpenFile := mkOpenFile { path : string; fd : option nat }.

Record OpenCall := mkOpenCall {
  open_err : option Error;
  open_result : OpenFile }.

(** [mkdir] up to the call of [mkdirp]: the path it asks mkdirp to
    create, or the exception of [generateName]. *)
Definition mkdir (now : DateParts) (pid : nat) (random36 : string)
           (affixes : JsValue) : Result string :=
  generateName path_join dir now pid random36 ToStringOther pathArgError affixes (Some "d-").

(** The arrow function that [mkdir] gives to [mkdirp]. *)
Definition mkdir_mkdirpCallback (dirPath : string) (err : option Error)
           (w : World) : MkdirCall * World :=
  let w :=
    match err with
    | None => deleteDirOnExit dirPath w
    | Some _ => w
    end in
  (mkMkdirCall err dirPath, w).

Definition mkdirSync (now : DateParts) (pid : nat) (random36 : string)
           (affixes : JsValue) : M string :=
  fun w =>
    match generateName path_join dir now pid random36 ToStringOther pathArgError affixes (Some "d-") with
    | Throw e => (Throw e, w)
    | Ret dirPath =>
        match mkdirpSync dirPath (disk w) with
        | (Some e, d) => (Throw e, set_disk d w)
        | (None, d) => (Ret dirPath, deleteDirOnExit dirPath (set_disk d w))
        end
    end.

(** [open] up to the call of [fs.open]. *)
Definition open (now : DateParts) (pid : nat) (random36 : string)
           (affixes : JsValue) : Result string :=
  generateName path_join dir now pid random36 ToStringOther pathArgError affixes (Some "f-").

(** The arrow function that [open] gives to [fs.open]. *)
Definition open_fsOpenCallback (path : string) (err : option Error)
           (fd : option nat) (w : World) : OpenCall * World :=
  let w :=
    match err with
    | None => deleteFileOnExit path w
    | Some _ => w
    end in
  (mkOpenCall err (mkOpenFile path fd), w).

Definition openSync (now : DateParts) (pid : nat) (random36 : string)
           (affixes : JsValue) : M OpenFile :=
  fun w =>
    match generateName path_join dir now pid random36 ToStringOther pathArgError affixes (Some "f-") with
    | Throw e => (Throw e, w)
    | Ret path =>
        match fsOpenSync path (disk w) with
        | (inl e, d) => (Throw e, set_disk d w)
        | (inr fd, d) =>
            (Ret (mkOpenFile path (Some fd)), deleteFileOnExit path (set_disk d w))
        end
    end.

(** [createWriteStream]: the stream is returned before the file is
    opened, so the path is registered whatever happens to it later.  The
    stream is identified by its path. *)
Definition createWriteStream (now : DateParts) (pid : nat) (random36 : string)
           (affixes : JsValue) : M string :=
  fun w =>
    match generateName path_join dir now pid random36 ToStringOther pathArgError affixes (Some "s-") with
    | Throw e => (Throw e, w)
    | Ret path => (Ret path, deleteFileOnExit path w)
    end.

(** ** Runs of the module

    What the rest of the program can do to the module state between two
    observations: call [track], have a file or a directory created (each
    factory registers through [deleteFileOnExit] / [deleteDirOnExit]),
    start one of the cleanups, or let the exit listener run. *)
Inductive Op :=
| CallTrack (value : JsValue)
| CreatedFile (filePath : string)
| CreatedDir (dirPath : string)
| CallCleanupSync
| CallCleanupFiles
| CallCleanupDirs
| RunExitListener.

Definition step (o : Op) (w : World) : World :=
  match o with
  | CallTrack value => track value w
  | CreatedFile filePath => deleteFileOnExit filePath w
  | CreatedDir dirPath => deleteDirOnExit dirPath w
  | CallCleanupSync => snd (cleanupSync w)
  | CallCleanupFiles => snd (cleanupFiles w)
  | CallCleanupDirs => snd (cleanupDirs w)
  | RunExitListener => snd (exitListener w)
  end.

Definition run (ops : list Op) (w : World) : World :=
  fold_left (fun w o => step o w) ops w.

(** What reaches a pending [cleanup]: a report for one of its removals,
    or the program doing something else to the module meanwhile. *)
Inductive Event :=
| Reported (r : Report)
| Called (o : Op).

Fixpoint cleanup_events (callback : CleanupCall -> Outcome)
         (evs : list Event) (t : Task) (w : World)
  : list CleanupCall * Task * World :=
  match evs with
  | [] => ([], t, w)
  | Reported r :: rest =>
      let '(cs, t1, w1) := cleanup_report callback r t w in
      let '(cs', t2, w2) := cleanup_events callback rest t1 w1 in
      ((cs ++ cs')%list, t2, w2)
  | Called o :: rest => cleanup_events callback rest t (step o w)
  end.

(** A call of [cleanup] followed by the events [evs]: every invocation
    of the caller's callback, first to last. *)
Definition cleanup_calls (callback : CleanupCall -> Outcome)
           (evs : list Event) (w : World) : list CleanupCall :=
  let '(cs, t, w1) := cleanup w in
  let '(cs', _, _) := cleanup_events callback evs t w1 in
  (cs ++ cs')%list.

(** ** Predicates used by the properties *)

(** What a drain never touches: the two flags, the listeners, the
    warnings. *)
Definition same_flags (w w' : World) : Prop :=
  tracking w' = tracking w /\
  exitListenerAttached w' = exitListenerAttached w /\
  exitListeners w' = exitListeners w /\
  warnings w' = warnings w.

(** The flag [exitListenerAttached] tells how many listeners the module
    has put on the "exit" event. *)
Definition hook_consistent (w : World) : Prop :=
  exitListeners w = if exitListenerAttached w then 1 else 0.

(** The listener bookkeeping alone. *)
Definition same_hook (w w' : World) : Prop :=
  exitListenerAttached w' = exitListenerAttached w /\
  exitListeners w' = exitListeners w.

(** The two [rimrafCallback]s differ in one place, the count handed over
    with an error; this is their text with that place left open. *)
Definition rimrafCallback_with (onError : nat -> JsCount)
           (callback : DrainCall -> Outcome)
           (err : option Error) (d : Drain) : option DrainCall * Drain :=
  if (left d =? 0)%nat then (None, d)
  else
    match err with
    | Some e =>
        let call := mkDrainCall (Some e) (onError (count d)) in
        match callback call with
        | Returns => (Some call, mkDrain (count d) 0)
        | Throws => (Some call, d)
        end
    | None =>
        let count := S (count d) in
        let left := left d - 1 in
        if (left =? 0)%nat then (Some (mkDrainCall None (Cnt count)), mkDrain count left)
        else (None, mkDrain count left)
    end.

(** A drain is settled once nothing is left. *)
Definition settled (d : Drain) : bool := (left d =? 0)%nat.

(** The directory drain of a [cleanup] starts after its file drain has
    settled. *)
Definition task_ok (t : Task) : Prop :=
  settled (fileDrain t) = false -> settled (dirDrain t) = true.

(** 1 while the callback of [cleanup] can still be invoked, 0 after. *)
Definition open_calls (t : Task) : nat :=
  if settled (fileDrain t) && settled (dirDrain t) then 0 else 1.

End Process.

(** ** A concrete set of collaborators

    A disk is the list of paths that exist.  Removing a path succeeds
    unless the path is [busyPath], which rimraf gives up on; creating a
    directory always succeeds; an exclusive open fails on an existing
    path. *)
Module Sample.

Definition Disk : Type := list string.

Definition busyPath : string := "/tmp/busy".

Definition EBUSY : Error := mkError "EBUSY: resource busy or locked".
Definition EEXIST : Error := mkError "EEXIST: file already exists".
Definition EACCES : Error := mkError "EACCES: permission denied".

Definition rimrafSync (p : string) (d : Disk) : option Error * Disk :=
  if String.eqb p busyPath then (Some EBUSY, d)
  else (None, filter (fun q => negb (String.eqb q p)) d).

Definition mkdirpSync (p : string) (d : Disk) : option Error * Disk :=
  (None, p :: d).

Definition fsOpenSync (p : string) (d : Disk) : (Error + nat) * Disk :=
  if existsb (String.eqb p) d then (inl EEXIST, d) else (inr 3, p :: d).

Definition path_join (a b : string) : string := a ++ "/" ++ b.

(** Every number, function and object rendered the way a plain object is;
    [path.join] refusing with one and the same error. *)
Definition ToStringOther (v : JsValue) : Result string := Ret "[object Object]".

Definition pathArgError (v : JsValue) : Error :=
  mkError "The path argument must be of type string".

Definition now : DateParts := mkDate 2024 0 15.

(** The module just loaded, on an empty disk. *)
Definition fresh : World := initial (@nil string).

(** Tracking on, two files and one directory pending. *)
Definition busy : World :=
  deleteDirOnExit "/tmp/d-1"
    (deleteFileOnExit "/tmp/f-2"
       (deleteFileOnExit "/tmp/f-1" (track JUndefined fresh))).

End Sample.

(** ** The execution-mode adapter

    [promisify] hands back the caller's callback when there is one; when
    there is none it makes a promise and the [promiseCallback] that settles
    it.  A [promiseCallback] does not settle the promise itself: it gives
    [process.nextTick] a function that does. *)

Inductive Style :=
| CallbackStyle
| PromiseStyle.

(** The test [typeof callback === "function"]. *)
Definition promisify (callback : JsValue) : Style :=
  match typeof callback with
  | TFunction => CallbackStyle
  | _ => PromiseStyle
  end.

(** What a promise is resolved with: [args[0]] or the array [args]. *)
Inductive Resolution (A : Type) : Type :=
| Single (a : A)
| Several (l : list A).
Arguments Single {A} a.
Arguments Several {A} l.

Inductive Settlement (A : Type) : Type :=
| Resolve (r : Resolution A)
| Reject (e : Error).
Arguments Resolve {A} r.
Arguments Reject {A} e.

(** The function that [promiseCallback] gives to [process.nextTick], for
    the arguments [err, ...args] it was called with. *)
Definition nextTickBody {A : Type} (err : option Error) (args : list A)
  : Settlement A :=
  match err with
  | Some e => Reject e
  | None =>
      match args with
      | [a] => Resolve (Single a)
      | _ => Resolve (Several args)
      end
  end.

(** The promise made by [promisify], with the functions waiting in the
    next-tick queue on its behalf. *)
Record Deferred (A : Type) : Type := mkDeferred {
  outcome : option (Settlement A);
  nextTicks : list (Settlement A) }.
Arguments mkDeferred {A} outcome nextTicks.
Arguments outcome {A} d.
Arguments nextTicks {A} d.

Definition newPromise {A : Type} : Deferred A := mkDeferred None [].

Definition promiseCallback {A : Type} (err : option Error) (args : list A)
           (p : Deferred A) : Deferred A :=
  mkDeferred (outcome p) (nextTicks p ++ [nextTickBody err args]).

(** [resolve] and [reject] act on a pending promise only. *)
Definition settle {A : Type} (s : Settlement A) (o : option (Settlement A))
  : option (Settlement A) :=
  match o with
  | None => Some s
  | Some s0 => Some s0
  end.

(** The event loop runs the oldest waiting function. *)
Definition runTick {A : Type} (p : Deferred A) : Deferred A :=
  match nextTicks p with
  | [] => p
  | s :: rest => mkDeferred (settle s (outcome p)) rest
  end.

(** The event loop runs every waiting function. *)
Definition runTicks {A : Type} (p : Deferred A) : Deferred A :=
  mkDeferred (fold_left (fun o s => settle s o) (nextTicks p) (outcome p)) [].

(** The arguments that follow [err] in a call of a drain's callback:
    [callback(err)] passes none. *)
Definition drain_args (c : DrainCall) : list JsCount :=
  match drain_count c with
  | CntUndefined => []
  | n => [n]
  end.

Definition cleanup_args (c : CleanupCall) : list Stats :=
  match cleanup_result c with
  | Some st => [st]
  | None => []
  end.

(** The promise of [cleanupFiles()] or [cleanupDirs()] after the calls
    [cs] of its [promiseCallback]. *)
Definition drain_promise (cs : list DrainCall) : Deferred JsCount :=
  fold_left (fun p c => promiseCallback (drain_err c) (drain_args c) p) cs newPromise.

(** The promise of [cleanup()] after the calls [cs]. *)
Definition cleanup_promise (cs : list CleanupCall) : Deferred Stats :=
  fold_left (fun p c => promiseCallback (cleanup_err c) (cleanup_args c) p) cs newPromise.

(** ** Registrations in a run *)

Definition isCreation (o : Op) : bool :=
  match o with
  | CreatedFile _ | CreatedDir _ => true
  | _ => false
  end.

Definition isTrack (o : Op) : bool :=
  match o with
  | CallTrack _ => true
  | _ => false
  end.

(** The file paths, and the directory paths, that the operations [ops]
    register, oldest first. *)
Definition createdFiles (ops : list Op) : list string :=
  flat_map (fun o => match o with CreatedFile p => [p] | _ => [] end) ops.

Definition createdDirs (ops : list Op) : list string :=
  flat_map (fun o => match o with CreatedDir p => [p] | _ => [] end) ops.

(** Removal reports as events of a pending [cleanup]. *)
Definition fileReports (reports : list (option Error)) : list Event :=
  map (fun err => Reported (FileRemoval err)) reports.

Definition dirReports (reports : list (option Error)) : list Event :=
  map (fun err => Reported (DirRemoval err)) reports.

(** [rimraf.sync] completes on [p], whatever the disk. *)
Definition removable {Disk : Type}
           (rimrafSync : string -> Disk -> option Error * Disk) (p : string) : Prop :=
  forall d, fst (rimrafSync p d) = None.

(** * Properties *)

(** ** How the synchronous drains move the state *)
Section SyncDrain.

Context {Disk : Type}.
Variable rimrafSync : string -> Disk -> option Error * Disk.

Lemma same_flags_refl (w : @World Disk) : same_flags w w.
Proof. repeat split. Qed.

Lemma same_flags_trans (w1 w2 w3 : @World Disk) :
  same_flags w1 w2 -> same_flags w2 w3 -> same_flags w1 w3.
Proof.
  unfold same_flags. intros (a & b & c & d) (a' & b' & c' & d').
  repeat split; congruence.
Qed.

Lemma shiftFiles_frame (pending : list string) :
  forall count w r w',
    shiftFiles rimrafSync pending count w = (r, w') ->
    same_flags w w' /\ dirsToDelete w' = dirsToDelete w.
Proof.
  induction pending as [|p rest IH]; intros c w r w' H; simpl in H.
  - inversion H; subst. split; [apply same_flags_refl | reflexivity].
  - unfold bind, modify, callRimrafSync in H; simpl in H.
    destruct (rimrafSync p (disk w)) as [[e|] d].
    + inversion H; subst. repeat split.
    + apply IH in H. destruct H as [(a & b & c' & d') Hd]. repeat split; assumption.
Qed.

Lemma shiftDirs_frame (pending : list string) :
  forall count w r w',
    shiftDirs rimrafSync pending count w = (r, w') ->
    same_flags w w' /\ filesToDelete w' = filesToDelete w.
Proof.
  induction pending as [|p rest IH]; intros c w r w' H; simpl in H.
  - inversion H; subst. split; [apply same_flags_refl | reflexivity].
  - unfold bind, modify, callRimrafSync in H; simpl in H.
    destruct (rimrafSync p (disk w)) as [[e|] d].
    + inversion H; subst. repeat split.
    + apply IH in H. destruct H as [(a & b & c' & d') Hd]. repeat split; assumption.
Qed.

(** A loop that runs to its end has emptied the list and counted every
    entry. *)
Lemma shiftFiles_returns (pending : list string) :
  forall count w n w',
    filesToDelete w = pending ->
    shiftFiles rimrafSync pending count w = (Ret n, w') ->
    filesToDelete w' = [] /\ n = count + List.length pending.
Proof.
  induction pending as [|p rest IH]; intros c w n w' Hl H; simpl in H.
  - inversion H; subst. split; [assumption | simpl; lia].
  - unfold bind, modify, callRimrafSync in H; simpl in H.
    destruct (rimrafSync p (disk w)) as [[e|] d]; [discriminate|].
    apply IH in H; [|reflexivity]. simpl. destruct H; split; [assumption | lia].
Qed.

Lemma shiftDirs_returns (pending : list string) :
  forall count w n w',
    dirsToDelete w = pending ->
    shiftDirs rimrafSync pending count w = (Ret n, w') ->
    dirsToDelete w' = [] /\ n = count + List.length pending.
Proof.
  induction pending as [|p rest IH]; intros c w n w' Hl H; simpl in H.
  - inversion H; subst. split; [assumption | simpl; lia].
  - unfold bind, modify, callRimrafSync in H; simpl in H.
    destruct (rimrafSync p (disk w)) as [[e|] d]; [discriminate|].
    apply IH in H; [|reflexivity]. simpl. destruct H; split; [assumption | lia].
Qed.

(** The whole of what [cleanupSync] does when it returns with tracking
    on. *)
Lemma cleanupSync_returns (w w' : @World Disk) (r : FalseOr Stats) :
  tracking w = true ->
  cleanupSync rimrafSync w = (Ret r, w') ->
  r = Val (mkStats (Cnt (List.length (filesToDelete w)))
                   (Cnt (List.length (dirsToDelete w)))) /\
  filesToDelete w' = [] /\ dirsToDelete w' = [] /\ same_flags w w'.
Proof.
  intros Ht H. unfold cleanupSync in H. rewrite Ht in H; simpl in H.
  unfold bind at 1 in H. unfold cleanupFilesSync in H. rewrite Ht in H; simpl in H.
  unfold bind at 1 in H.
  destruct (shiftFiles rimrafSync (filesToDelete w) 0 w) as [[n|e] w1] eqn:Hf;
    [|discriminate].
  destruct (shiftFiles_frame _ _ _ _ _ Hf) as [Hfl Hd].
  destruct (shiftFiles_returns _ _ _ _ _ eq_refl Hf) as [Hnil Hn].
  unfold ret at 1 in H. unfold bind at 1 in H. unfold cleanupDirsSync in H.
  assert (Ht1 : tracking w1 = true) by (destruct Hfl as (a & _); congruence).
  rewrite Ht1 in H; simpl in H. unfold bind at 1 in H.
  destruct (shiftDirs rimrafSync (dirsToDelete w1) 0 w1) as [[m|e] w2] eqn:Hg;
    [|discriminate].
  destruct (shiftDirs_frame _ _ _ _ _ Hg) as [Hfl2 Hfiles].
  destruct (shiftDirs_returns _ _ _ _ _ eq_refl Hg) as [Hnil2 Hm].
  unfold ret in H. inversion H; subst r w'. clear H.
  simpl in Hn, Hm. rewrite Hd in Hm. subst n m.
  split; [reflexivity|]. split; [congruence|]. split; [assumption|].
  eapply same_flags_trans; eassumption.
Qed.

(** When nothing is pending, [cleanupSync] asks for no removal. *)
Lemma cleanupSync_nothing_pending (w : @World Disk) :
  tracking w = true -> filesToDelete w = [] -> dirsToDelete w = [] ->
  cleanupSync rimrafSync w = (Ret (Val (mkStats (Cnt 0) (Cnt 0))), w).
Proof.
  intros Ht Hf Hd. unfold cleanupSync, cleanupFilesSync, cleanupDirsSync, bind, ret.
  rewrite Ht, Hf; simpl. rewrite Ht, Hd; simpl. reflexivity.
Qed.

(** With a removal collaborator that never throws, [cleanupSync] does
    return. *)
Lemma shiftFiles_total (pending : list string) :
  (forall p d, fst (rimrafSync p d) = None) ->
  forall count w, exists w',
    shiftFiles rimrafSync pending count w = (Ret (count + List.length pending), w').
Proof.
  intros Hok. induction pending as [|p rest IH]; intros c w; simpl.
  - exists w. unfold ret. f_equal. f_equal. lia.
  - unfold bind, modify, callRimrafSync; simpl.
    specialize (Hok p (disk w)).
    destruct (rimrafSync p (disk w)) as [o d]; simpl in Hok; subst o.
    edestruct IH as [w' Hw']. rewrite Hw'. exists w'. f_equal. f_equal. lia.
Qed.

Lemma shiftDirs_total (pending : list string) :
  (forall p d, fst (rimrafSync p d) = None) ->
  forall count w, exists w',
    shiftDirs rimrafSync pending count w = (Ret (count + List.length pending), w').
Proof.
  intros Hok. induction pending as [|p rest IH]; intros c w; simpl.
  - exists w. unfold ret. f_equal. f_equal. lia.
  - unfold bind, modify, callRimrafSync; simpl.
    specialize (Hok p (disk w)).
    destruct (rimrafSync p (disk w)) as [o d]; simpl in Hok; subst o.
    edestruct IH as [w' Hw']. rewrite Hw'. exists w'. f_equal. f_equal. lia.
Qed.

(** With a removal collaborator that never throws and tracking on,
    [cleanupSync] returns, with the two list lengths as counts. *)
Lemma cleanupSync_total (w : @World Disk) :
  (forall p d, fst (rimrafSync p d) = None) ->
  tracking w = true ->
  exists w',
    cleanupSync rimrafSync w
    = (Ret (Val (mkStats (Cnt (List.length (filesToDelete w)))
                         (Cnt (List.length (dirsToDelete w))))), w').
Proof.
  intros Hok Ht.
  destruct (shiftFiles_total (filesToDelete w) Hok 0 w) as [w1 H1].
  destruct (shiftFiles_frame _ _ _ _ _ H1) as [(Ht1 & _) Hd1].
  destruct (shiftDirs_total (dirsToDelete w1) Hok 0 w1) as [w2 H2].
  exists w2. unfold cleanupSync. rewrite Ht. simpl.
  unfold bind at 1. unfold cleanupFilesSync. rewrite Ht. simpl.
  unfold bind at 1. rewrite H1. unfold ret at 1. unfold bind at 1.
  unfold cleanupDirsSync. rewrite Ht1, Ht. simpl. unfold bind at 1. rewrite H2.
  unfold ret. simpl. rewrite Hd1. reflexivity.
Qed.

End SyncDrain.

(** ** The tracking flag *)

(** C10. [track(value)] turns tracking off exactly when [value] is the
    boolean [false]; after any other argument ([undefined], [null], [0],
    the empty string, ...) tracking is on. *)
Theorem track_off_only_on_false {Disk : Type} (value : JsValue) (w : @World Disk) :
  (value = JBoolean false /\ tracking (track value w) = false) \/
  (value <> JBoolean false /\ tracking (track value w) = true).
Proof.
  destruct value as [| |[|]| | | | | |];
    try (right; split; [discriminate | reflexivity]).
  left. split; reflexivity.
Qed.

Lemma track_off_only_on_false_witness :
  tracking (track JUndefined Sample.fresh) = true /\
  tracking (track JNull Sample.fresh) = true /\
  tracking (track (JNumber 0%float) Sample.fresh) = true /\
  tracking (track (JString "") Sample.fresh) = true /\
  tracking (track (JBoolean false) Sample.busy) = false.
Proof.
  split; [|split; [|split; [|split]]].
  - destruct (track_off_only_on_false JUndefined Sample.fresh) as [[H _]|[_ H]];
      [discriminate H | exact H].
  - destruct (track_off_only_on_false JNull Sample.fresh) as [[H _]|[_ H]];
      [discriminate H | exact H].
  - destruct (track_off_only_on_false (JNumber 0%float) Sample.fresh) as [[H _]|[_ H]];
      [discriminate H | exact H].
  - destruct (track_off_only_on_false (JString "") Sample.fresh) as [[H _]|[_ H]];
      [discriminate H | exact H].
  - destruct (track_off_only_on_false (JBoolean false) Sample.busy) as [[_ H]|[H _]];
      [exact H | exfalso; apply H; reflexivity].
Defined.

(** C1, as the code has it.  The module starts with tracking off: in the
    initial state a registration changes nothing and [cleanupSync] returns
    [false].  After [track()], from any state, a registered path is appended
    to its list and [cleanupSync] no longer returns [false]. *)
Theorem tracking_is_off_until_track {Disk : Type}
        (rimrafSync : string -> Disk -> option Error * Disk)
        (d : Disk) (w : @World Disk) (p : string) :
  (tracking (initial d) = false /\
   deleteFileOnExit p (initial d) = initial d /\
   deleteDirOnExit p (initial d) = initial d /\
   cleanupSync rimrafSync (initial d) = (Ret JsFalse, initial d)) /\
  (tracking (track JUndefined w) = true /\
   filesToDelete (deleteFileOnExit p (track JUndefined w)) = filesToDelete w ++ [p] /\
   dirsToDelete (deleteDirOnExit p (track JUndefined w)) = dirsToDelete w ++ [p] /\
   fst (cleanupSync rimrafSync (track JUndefined w)) <> Ret JsFalse)%list.
Proof.
  split; [repeat split|].
  split; [reflexivity|]. split; [|split].
  - unfold deleteFileOnExit, attachExitListener; simpl.
    destruct (exitListenerAttached w); reflexivity.
  - unfold deleteDirOnExit, attachExitListener; simpl.
    destruct (exitListenerAttached w); reflexivity.
  - destruct (cleanupSync rimrafSync (track JUndefined w)) as [[r|e] w'] eqn:H;
      simpl; [|discriminate].
    apply cleanupSync_returns in H; [|reflexivity].
    destruct H as (Hr & _). subst r. discriminate.
Qed.

(** C1 as stated fails on the module as loaded: nothing is appended and
    [cleanupSync] returns [false]. *)
Lemma initial_state_does_not_track :
  filesToDelete (deleteFileOnExit "/tmp/f-1" Sample.fresh)
    <> (filesToDelete Sample.fresh ++ ["/tmp/f-1"])%list /\
  dirsToDelete (deleteDirOnExit "/tmp/d-1" Sample.fresh)
    <> (dirsToDelete Sample.fresh ++ ["/tmp/d-1"])%list /\
  fst (cleanupSync Sample.rimrafSync Sample.fresh) = Ret JsFalse.
Proof.
  repeat split; simpl; discriminate.
Qed.

(** ** Synchronous cleanup *)

(** C4. With tracking on, a [cleanupSync] that returns has emptied both
    lists, and the next [cleanupSync] returns [{files: 0, dirs: 0}] and
    changes nothing. *)
Theorem cleanupSync_drains_and_is_idempotent {Disk : Type}
        (rimrafSync : string -> Disk -> option Error * Disk)
        (w w' : @World Disk) (r : FalseOr Stats) :
  tracking w = true ->
  cleanupSync rimrafSync w = (Ret r, w') ->
  filesToDelete w' = [] /\ dirsToDelete w' = [] /\
  cleanupSync rimrafSync w' = (Ret (Val (mkStats (Cnt 0) (Cnt 0))), w').
Proof.
  intros Ht H.
  destruct (cleanupSync_returns rimrafSync w w' r Ht H) as (_ & Hf & Hd & Hfl).
  split; [assumption|]. split; [assumption|].
  apply cleanupSync_nothing_pending; try assumption.
  destruct Hfl as (Ht' & _). congruence.
Qed.

Lemma cleanupSync_drains_and_is_idempotent_witness :
  fst (cleanupSync Sample.rimrafSync Sample.busy)
    = Ret (Val (mkStats (Cnt 2) (Cnt 1))) /\
  fst (cleanupSync Sample.rimrafSync (snd (cleanupSync Sample.rimrafSync Sample.busy)))
    = Ret (Val (mkStats (Cnt 0) (Cnt 0))).
Proof.
  split; [reflexivity|].
  pose proof (cleanupSync_drains_and_is_idempotent Sample.rimrafSync Sample.busy
                (snd (cleanupSync Sample.rimrafSync Sample.busy))
                (Val (mkStats (Cnt 2) (Cnt 1))) eq_refl eq_refl) as (_ & _ & H).
  rewrite H. reflexivity.
Defined.

(** C6. With tracking off every cleanup gives up at once: the synchronous
    ones return [false], the asynchronous ones call back with the error
    "not tracking"; the world (both lists, the removal requests, the disk)
    is left as it was. *)
Theorem cleanup_when_not_tracking {Disk : Type}
        (rimrafSync : string -> Disk -> option Error * Disk) (w : @World Disk) :
  tracking w = false ->
  cleanupSync rimrafSync w = (Ret JsFalse, w) /\
  cleanupFilesSync rimrafSync w = (Ret CntFalse, w) /\
  cleanupDirsSync rimrafSync w = (Ret CntFalse, w) /\
  cleanupFiles w = (CalledBack (mkDrainCall (Some notTracking) CntUndefined), w) /\
  cleanupDirs w = (CalledBack (mkDrainCall (Some notTracking) CntUndefined), w) /\
  cleanup w = ([mkCleanupCall (Some notTracking) None], idle, w).
Proof.
  intros Ht.
  unfold cleanupSync, cleanupFilesSync, cleanupDirsSync, cleanupFiles, cleanupDirs,
    cleanup.
  rewrite Ht. simpl. repeat split.
Qed.

Lemma cleanup_when_not_tracking_witness :
  let w := track (JBoolean false) Sample.busy in
  filesToDelete w = ["/tmp/f-1"; "/tmp/f-2"] /\
  cleanupSync Sample.rimrafSync w = (Ret JsFalse, w) /\
  cleanup w = ([mkCleanupCall (Some (mkError "not tracking")) None], idle, w).
Proof.
  intro w. split; [reflexivity|].
  destruct (cleanup_when_not_tracking Sample.rimrafSync w eq_refl)
    as (H1 & _ & _ & _ & _ & H6).
  split; [exact H1 | exact H6].
Defined.

(** Paths registered while tracking was on stay pending when tracking is
    turned off, and the exit listener then passes them by. *)
Lemma registered_paths_survive_track_false {Disk : Type}
      (rimrafSync : string -> Disk -> option Error * Disk)
      (w : @World Disk) (p q : string) :
  tracking w = true ->
  let w' := track (JBoolean false) (deleteDirOnExit q (deleteFileOnExit p w)) in
  In p (filesToDelete w') /\ In q (dirsToDelete w') /\
  exitListenerAttached w' = true /\
  exitListener rimrafSync w' = (Ret tt, w').
Proof.
  intros Ht. destruct w as [t a fs ds n rs ws dk]. simpl in Ht. subst t.
  destruct a; cbn;
    (split; [apply in_or_app; right; left; reflexivity|]);
    (split; [apply in_or_app; right; left; reflexivity|]);
    (split; reflexivity).
Qed.

(** C9. An exit listener that runs while tracking is off asks for no
    removal and leaves the world as it was: whatever is pending, registered
    earlier while tracking was on, stays pending. *)
Theorem exitListener_when_not_tracking {Disk : Type}
        (rimrafSync : string -> Disk -> option Error * Disk) (w : @World Disk) :
  tracking w = false ->
  exitListener rimrafSync w = (Ret tt, w).
Proof.
  intros Ht. unfold exitListener, cleanupSync. rewrite Ht. reflexivity.
Qed.

Lemma exitListener_when_not_tracking_witness :
  let w := track (JBoolean false) Sample.busy in
  filesToDelete w = ["/tmp/f-1"; "/tmp/f-2"] /\
  dirsToDelete w = ["/tmp/d-1"] /\
  exitListenerAttached w = true /\
  exitListener Sample.rimrafSync w = (Ret tt, w).
Proof.
  intro w. split; [reflexivity|]. split; [reflexivity|]. split; [reflexivity|].
  exact (exitListener_when_not_tracking Sample.rimrafSync w eq_refl).
Defined.

(** ** Asynchronous drains *)
Section AsyncDrain.

Variable onError : nat -> JsCount.
Variable callback : DrainCall -> Outcome.

Let cb := rimrafCallback_with onError callback.

(** A settled drain lets every report pass. *)
Lemma deliver_settled (reports : list (option Error)) (d : Drain) :
  settled d = true -> deliver cb reports d = ([], d).
Proof.
  unfold settled. intros Hs. induction reports as [|err rest IH]; [reflexivity|].
  simpl. unfold cb at 1, rimrafCallback_with. rewrite Hs. rewrite IH. reflexivity.
Qed.

(** With a callback that returns, a drain calls it at most once. *)
Lemma deliver_at_most_once (reports : list (option Error)) :
  (forall c, callback c = Returns) ->
  forall d, List.length (fst (deliver cb reports d)) <= 1.
Proof.
  intros Hret. induction reports as [|err rest IH]; intros d; simpl; [lia|].
  unfold cb at 1, rimrafCallback_with.
  destruct (left d =? 0)%nat eqn:Hl.
  - specialize (IH d). destruct (deliver cb rest d). exact IH.
  - destruct err as [e|].
    + cbv zeta. rewrite Hret. rewrite deliver_settled by reflexivity. simpl. lia.
    + simpl. destruct (left d - 1 =? 0)%nat eqn:Hl'.
      * rewrite deliver_settled by (unfold settled; simpl; exact Hl'). simpl. lia.
      * specialize (IH (mkDrain (S (count d)) (left d - 1))).
        destruct (deliver cb rest (mkDrain (S (count d)) (left d - 1))). exact IH.
Qed.

(** An error reaching an unsettled drain is passed on at once. *)
Lemma deliver_error_first (e : Error) (later : list (option Error)) (d : Drain) :
  settled d = false ->
  hd_error (fst (deliver cb (Some e :: later) d))
  = Some (mkDrainCall (Some e) (onError (count d))).
Proof.
  unfold settled. intros Hs. simpl. unfold cb at 1, rimrafCallback_with. rewrite Hs.
  cbv zeta. destruct (callback _);
    match goal with |- context [deliver cb later ?x] => destruct (deliver cb later x) end;
    reflexivity.
Qed.

(** When the callback returns from that call, nothing that arrives later
    is passed on. *)
Lemma deliver_error (e : Error) (later : list (option Error)) (d : Drain) :
  settled d = false ->
  callback (mkDrainCall (Some e) (onError (count d))) = Returns ->
  deliver cb (Some e :: later) d
  = ([mkDrainCall (Some e) (onError (count d))], mkDrain (count d) 0).
Proof.
  unfold settled. intros Hs Hret. simpl. unfold cb at 1, rimrafCallback_with.
  rewrite Hs. cbv zeta. rewrite Hret.
  rewrite deliver_settled by reflexivity. reflexivity.
Qed.

(** Successful removals short of the last only count. *)
Lemma deliver_successes (k : nat) (reports : list (option Error)) :
  forall d,
    k < left d ->
    deliver cb (repeat None k ++ reports) d
    = deliver cb reports (mkDrain (count d + k) (left d - k)).
Proof.
  induction k as [|k IH]; intros d Hk.
  - simpl app. rewrite Nat.add_0_r, Nat.sub_0_r. destruct d; reflexivity.
  - simpl. unfold cb at 1, rimrafCallback_with.
    replace (left d =? 0)%nat with false by (symmetry; apply Nat.eqb_neq; lia).
    simpl. replace (left d - 1 =? 0)%nat with false by (symmetry; apply Nat.eqb_neq; lia).
    fold cb. rewrite IH by (simpl; lia). simpl.
    replace (S (count d + k)) with (count d + S k) by lia.
    replace (left d - 1 - k) with (left d - S k) by lia.
    destruct (deliver cb reports (mkDrain (count d + S k) (left d - S k))). reflexivity.
Qed.

(** The first error after [k] successful removals, out of [left d] in
    flight. *)
Lemma deliver_first_error_first (e : Error) (later : list (option Error)) (k : nat)
      (d : Drain) :
  k < left d ->
  hd_error (fst (deliver cb (repeat None k ++ Some e :: later) d))
  = Some (mkDrainCall (Some e) (onError (count d + k))).
Proof.
  intros Hk. rewrite deliver_successes by exact Hk.
  rewrite deliver_error_first by (unfold settled; simpl; apply Nat.eqb_neq; lia).
  reflexivity.
Qed.

Lemma deliver_first_error (e : Error) (later : list (option Error)) (k : nat)
      (d : Drain) :
  k < left d ->
  callback (mkDrainCall (Some e) (onError (count d + k))) = Returns ->
  deliver cb (repeat None k ++ Some e :: later) d
  = ([mkDrainCall (Some e) (onError (count d + k))], mkDrain (count d + k) 0).
Proof.
  intros Hk Hret. rewrite deliver_successes by exact Hk.
  rewrite deliver_error; [reflexivity | | exact Hret].
  unfold settled; simpl; apply Nat.eqb_neq; lia.
Qed.

(** All [left d] removals succeed: one call, with the full count. *)
Lemma deliver_all_removed (n : nat) :
  forall d,
    left d = S n ->
    deliver cb (repeat None (S n)) d
    = ([mkDrainCall None (Cnt (count d + S n))], mkDrain (count d + S n) 0).
Proof.
  induction n as [|n IH]; intros d Hl.
  - simpl. unfold cb, rimrafCallback_with. rewrite Hl. simpl.
    replace (count d + 1) with (S (count d)) by lia. reflexivity.
  - change (repeat None (S (S n))) with (@None Error :: repeat None (S n)).
    cbn [deliver]. unfold cb at 1, rimrafCallback_with. rewrite Hl.
    cbn [Nat.eqb Nat.sub]. rewrite ?Nat.sub_0_r. fold cb.
    rewrite IH by reflexivity. cbn [count].
    replace (S (count d) + S n) with (count d + S (S n)) by lia. reflexivity.
Qed.

End AsyncDrain.

(** ** The combined cleanup invokes a callback that returns once *)
Section Combined.

Context {Disk : Type}.
Variable rimrafSync : string -> Disk -> option Error * Disk.

(** The ways a report can go through a [rimrafCallback]. *)
Lemma rimrafCallback_cases (onError : nat -> JsCount) (callback : DrainCall -> Outcome)
      (err : option Error) (d d' : Drain) (c : option DrainCall) :
  rimrafCallback_with onError callback err d = (c, d') ->
  (settled d = true /\ c = None /\ d' = d) \/
  (settled d = false /\ c = None /\ settled d' = false) \/
  (settled d = false /\ c <> None /\ settled d' = true) \/
  (settled d = false /\ d' = d /\ exists call, c = Some call /\ callback call = Throws).
Proof.
  unfold rimrafCallback_with, settled. intros H.
  destruct (left d =? 0)%nat eqn:Hl.
  - inversion H; subst. left. repeat split.
  - right. destruct err as [e|].
    + cbv zeta in H.
      destruct (callback (mkDrainCall (Some e) (onError (count d)))) eqn:Hc;
        inversion H; subst.
      * right. left. split; [reflexivity|]. split; [discriminate|reflexivity].
      * right. right. split; [reflexivity|]. split; [reflexivity|].
        eexists. split; [reflexivity | exact Hc].
    + destruct (left d - 1 =? 0)%nat eqn:Hl'; inversion H; subst; simpl.
      * right. left. split; [reflexivity|]. split; [discriminate|assumption].
      * left. split; [reflexivity|]. split; [reflexivity|assumption].
Qed.

Lemma open_calls_le_1 (t : Task) : open_calls t <= 1.
Proof. unfold open_calls. destruct (settled (fileDrain t) && settled (dirDrain t)); lia. Qed.

Lemma cleanup_filesCallback_once (c : DrainCall) (t t' : Task)
      (w w' : @World Disk) (cs : list CleanupCall) :
  settled (fileDrain t) = true -> settled (dirDrain t) = true ->
  cleanup_filesCallback c t w = (cs, t', w') ->
  task_ok t' /\ List.length cs + open_calls t' <= 1.
Proof.
  intros Hf Hd H. unfold cleanup_filesCallback in H.
  destruct (drain_err c) as [fileErr|].
  - inversion H; subst. split; [intros Hc; congruence|].
    unfold open_calls. rewrite Hf, Hd. simpl. lia.
  - destruct (cleanupDirs w) as [[dc|d] w1]; inversion H; subst.
    + split; [intros Hc; congruence|].
      unfold open_calls. rewrite Hf, Hd. simpl. lia.
    + split; [intros Hc; simpl in Hc; congruence|].
      simpl. apply open_calls_le_1.
Qed.

Variable callback : CleanupCall -> Outcome.
Hypothesis callback_returns : forall c, callback c = Returns.

Lemma cleanup_filesCallback_returns (c : DrainCall) (w : @World Disk) :
  cleanup_filesCallback_outcome callback c w = Returns.
Proof.
  unfold cleanup_filesCallback_outcome.
  destruct (drain_err c); [apply callback_returns|].
  destruct (cleanupDirs w) as [[dc|d] w1]; [apply callback_returns | reflexivity].
Qed.

Lemma cleanup_report_once (r : Report) (t t' : Task) (w w' : @World Disk)
      (cs : list CleanupCall) :
  task_ok t ->
  cleanup_report callback r t w = (cs, t', w') ->
  task_ok t' /\ List.length cs + open_calls t' <= open_calls t.
Proof.
  intros Hok H. destruct t as [fd fc dd]. unfold task_ok in Hok; simpl in Hok.
  destruct r as [err|err]; simpl in H.
  - change (cleanupFiles_rimrafCallback
              (fun c => cleanup_filesCallback_outcome callback c w) err fd)
      with (rimrafCallback_with (fun _ => CntUndefined)
              (fun c => cleanup_filesCallback_outcome callback c w) err fd) in H.
    destruct (rimrafCallback_with (fun _ => CntUndefined)
                (fun c => cleanup_filesCallback_outcome callback c w) err fd)
      as [c d] eqn:Hcb.
    apply rimrafCallback_cases in Hcb.
    destruct Hcb as [(Hs & Hc & Hd) | [(Hs & Hc & Hd) | [(Hs & Hc & Hd) | (_ & _ & Hx)]]].
    + subst c d. inversion H; subst. split; [exact Hok | simpl; lia].
    + subst c. inversion H; subst.
      split; [intros _; simpl; auto|].
      unfold open_calls; simpl. rewrite Hs, Hd. simpl. lia.
    + destruct c as [c|]; [|congruence].
      apply cleanup_filesCallback_once in H; simpl; auto.
      destruct H as [Ht' Hn]. split; [assumption|].
      unfold open_calls at 2; simpl. rewrite Hs. simpl. exact Hn.
    + destruct Hx as (call & _ & Hthrow).
      rewrite cleanup_filesCallback_returns in Hthrow. discriminate.
  - change (cleanupDirs_rimrafCallback
              (fun c => callback (cleanup_dirsCallback fc c)) err dd)
      with (rimrafCallback_with Cnt
              (fun c => callback (cleanup_dirsCallback fc c)) err dd) in H.
    destruct (rimrafCallback_with Cnt
                (fun c => callback (cleanup_dirsCallback fc c)) err dd)
      as [c d] eqn:Hcb.
    apply rimrafCallback_cases in Hcb.
    destruct Hcb as [(Hs & Hc & Hd) | [(Hs & Hc & Hd) | [(Hs & Hc & Hd) | (_ & _ & Hx)]]].
    + subst c d. inversion H; subst. split; [exact Hok | simpl; lia].
    + subst c. inversion H; subst.
      assert (Hf : settled fd = true)
        by (destruct (settled fd); [reflexivity | rewrite Hok in Hs; congruence]).
      split; [intros Hc; simpl in Hc; congruence|].
      unfold open_calls; simpl. rewrite Hf, Hs, Hd. simpl. lia.
    + destruct c as [c|]; [|congruence]. inversion H; subst.
      assert (Hf : settled fd = true)
        by (destruct (settled fd); [reflexivity | rewrite Hok in Hs; congruence]).
      split; [intros Hc'; simpl in Hc'; congruence|].
      unfold open_calls; simpl. rewrite Hf, Hs, Hd. simpl. lia.
    + destruct Hx as (call & _ & Hthrow).
      rewrite callback_returns in Hthrow. discriminate.
Qed.

Lemma cleanup_events_once (evs : list Event) :
  forall (t t' : Task) (w w' : @World Disk) (cs : list CleanupCall),
    task_ok t ->
    cleanup_events rimrafSync callback evs t w = (cs, t', w') ->
    List.length cs <= open_calls t.
Proof.
  induction evs as [|ev rest IH]; intros t t' w w' cs Hok H; simpl in H.
  - inversion H; subst. simpl. lia.
  - destruct ev as [r|o].
    + destruct (cleanup_report callback r t w) as [[cs1 t1] w1] eqn:Hr.
      destruct (cleanup_events rimrafSync callback rest t1 w1) as [[cs2 t2] w2] eqn:He.
      inversion H; subst.
      apply cleanup_report_once in Hr; [|assumption]. destruct Hr as [Hok1 Hn].
      apply IH in He; [|assumption].
      rewrite length_app. lia.
    + eapply IH; eassumption.
Qed.

Lemma cleanup_once (evs : list Event) (w : @World Disk) :
  List.length (cleanup_calls rimrafSync callback evs w) <= 1.
Proof.
  unfold cleanup_calls.
  destruct (cleanup w) as [[cs t] w1] eqn:Hc.
  destruct (cleanup_events rimrafSync callback evs t w1) as [[cs' t'] w2] eqn:He.
  assert (Hstart : task_ok t /\ List.length cs + open_calls t <= 1).
  { unfold cleanup in Hc. destruct (negb (tracking w)).
    - inversion Hc; subst. split; [intros Hx; reflexivity | unfold open_calls, idle; simpl; lia].
    - destruct (cleanupFiles w) as [[c|d] w0].
      + apply cleanup_filesCallback_once in Hc; auto.
      + inversion Hc; subst. split; [intros _; reflexivity|].
        simpl. apply open_calls_le_1. }
  destruct Hstart as [Hok Hn].
  apply cleanup_events_once in He; [|assumption].
  rewrite length_app. lia.
Qed.

End Combined.

(** With a callback that returns, a drain and the combined [cleanup] call
    it at most once, and reports that follow an error change neither the
    calls made nor the drain. *)
Lemma returning_callback_is_invoked_at_most_once {Disk : Type}
      (rimrafSync : string -> Disk -> option Error * Disk) (w : @World Disk)
      (drainCallback : DrainCall -> Outcome) (callback : CleanupCall -> Outcome)
      (evs : list Event) (reports later : list (option Error))
      (d : Drain) (e : Error) :
  (forall c, drainCallback c = Returns) ->
  (forall c, callback c = Returns) ->
  (List.length (fst (deliver (cleanupFiles_rimrafCallback drainCallback) reports d)) <= 1 /\
   List.length (fst (deliver (cleanupDirs_rimrafCallback drainCallback) reports d)) <= 1 /\
   List.length (cleanup_calls rimrafSync callback evs w) <= 1) /\
  (deliver (cleanupFiles_rimrafCallback drainCallback) (Some e :: later) d
   = deliver (cleanupFiles_rimrafCallback drainCallback) [Some e] d /\
   deliver (cleanupDirs_rimrafCallback drainCallback) (Some e :: later) d
   = deliver (cleanupDirs_rimrafCallback drainCallback) [Some e] d).
Proof.
  intros Hd Hc.
  change (cleanupFiles_rimrafCallback drainCallback)
    with (rimrafCallback_with (fun _ => CntUndefined) drainCallback).
  change (cleanupDirs_rimrafCallback drainCallback)
    with (rimrafCallback_with Cnt drainCallback).
  split.
  - split; [apply deliver_at_most_once; exact Hd|].
    split; [apply deliver_at_most_once; exact Hd|].
    apply cleanup_once. exact Hc.
  - destruct (settled d) eqn:Hs.
    + rewrite !deliver_settled by assumption. split; reflexivity.
    + rewrite !deliver_error by (try assumption; apply Hd). split; reflexivity.
Qed.

(** C7, on the code.  The guard [left = 0] is set after the callback has
    been called with the error.  With a callback that throws, a drain with
    three removals in flight and the reports error, error, success calls it
    for each of the two errors, and so does [cleanup]; with a callback that
    returns the same reports give one call. *)
Theorem throwing_callback_is_invoked_again :
  let throwing := fun _ : DrainCall => Throws in
  let reports := [Some Sample.EBUSY; Some Sample.EACCES; None] in
  fst (deliver (cleanupFiles_rimrafCallback throwing) reports (mkDrain 0 3))
  = [mkDrainCall (Some Sample.EBUSY) CntUndefined;
     mkDrainCall (Some Sample.EACCES) CntUndefined] /\
  fst (deliver (cleanupDirs_rimrafCallback throwing) reports (mkDrain 0 3))
  = [mkDrainCall (Some Sample.EBUSY) (Cnt 0);
     mkDrainCall (Some Sample.EACCES) (Cnt 0)] /\
  cleanup_calls Sample.rimrafSync (fun _ => Throws)
    [Reported (FileRemoval (Some Sample.EBUSY));
     Reported (FileRemoval (Some Sample.EACCES))] Sample.busy
  = [mkCleanupCall (Some Sample.EBUSY) (Some (mkStats CntUndefined CntUndefined));
     mkCleanupCall (Some Sample.EACCES) (Some (mkStats CntUndefined CntUndefined))] /\
  fst (deliver (cleanupDirs_rimrafCallback alwaysReturns) reports (mkDrain 0 3))
  = [mkDrainCall (Some Sample.EBUSY) (Cnt 0)].
Proof.
  cbv zeta. split; [reflexivity|]. split; [reflexivity|]. split; reflexivity.
Qed.

(** The directory drain hands over, with the first error, the number of
    removals that had succeeded before it. *)
Lemma cleanupDirs_first_error_has_count (callback : DrainCall -> Outcome)
      (n k : nat) (e : Error) (later : list (option Error)) :
  k < n ->
  hd_error (fst (deliver (cleanupDirs_rimrafCallback callback)
                   (repeat None k ++ Some e :: later) (mkDrain 0 n)))
  = Some (mkDrainCall (Some e) (Cnt k)).
Proof.
  intros Hk.
  change (cleanupDirs_rimrafCallback callback) with (rimrafCallback_with Cnt callback).
  rewrite deliver_first_error_first by (simpl; exact Hk). reflexivity.
Qed.

(** The file drain hands over the error alone, whatever had succeeded. *)
Lemma cleanupFiles_first_error_has_no_count (callback : DrainCall -> Outcome)
      (n k : nat) (e : Error) (later : list (option Error)) :
  k < n ->
  hd_error (fst (deliver (cleanupFiles_rimrafCallback callback)
                   (repeat None k ++ Some e :: later) (mkDrain 0 n)))
  = Some (mkDrainCall (Some e) CntUndefined).
Proof.
  intros Hk.
  change (cleanupFiles_rimrafCallback callback)
    with (rimrafCallback_with (fun _ => CntUndefined) callback).
  rewrite deliver_first_error_first by (simpl; exact Hk). reflexivity.
Qed.

(** A drain whose removals all succeed calls back with the full count. *)
Lemma drains_report_full_count (callback : DrainCall -> Outcome) (n : nat) :
  fst (deliver (cleanupFiles_rimrafCallback callback) (repeat None (S n))
         (mkDrain 0 (S n)))
  = [mkDrainCall None (Cnt (S n))] /\
  fst (deliver (cleanupDirs_rimrafCallback callback) (repeat None (S n))
         (mkDrain 0 (S n)))
  = [mkDrainCall None (Cnt (S n))].
Proof.
  change (cleanupFiles_rimrafCallback callback)
    with (rimrafCallback_with (fun _ => CntUndefined) callback).
  change (cleanupDirs_rimrafCallback callback) with (rimrafCallback_with Cnt callback).
  rewrite !deliver_all_removed by reflexivity. split; reflexivity.
Qed.

(** C2, on the code.  Three removals in flight, the first succeeds, the
    second fails.  [cleanupDirs] calls back with the error and the count 1;
    [cleanupFiles] calls back with the error and no count, and [cleanup]
    passes that on as [{files: undefined}].  This is so whether the
    callback returns or throws. *)
Theorem cleanupFiles_error_comes_without_count
        (drainCallback : DrainCall -> Outcome) (callback : CleanupCall -> Outcome) :
  let w :=
    deleteFileOnExit "/tmp/f-3"
      (deleteFileOnExit "/tmp/f-2"
         (deleteFileOnExit "/tmp/f-1" (track JUndefined Sample.fresh))) in
  fst (cleanupFiles w) = InFlight (mkDrain 0 3) /\
  fst (deliver (cleanupFiles_rimrafCallback drainCallback)
         [None; Some Sample.EBUSY; None] (mkDrain 0 3))
  = [mkDrainCall (Some Sample.EBUSY) CntUndefined] /\
  fst (deliver (cleanupDirs_rimrafCallback drainCallback)
         [None; Some Sample.EBUSY; None] (mkDrain 0 3))
  = [mkDrainCall (Some Sample.EBUSY) (Cnt 1)] /\
  cleanup_calls Sample.rimrafSync callback
    [Reported (FileRemoval None); Reported (FileRemoval (Some Sample.EBUSY));
     Reported (FileRemoval None)] w
  = [mkCleanupCall (Some Sample.EBUSY) (Some (mkStats CntUndefined CntUndefined))].
Proof.
  cbv zeta. split; [reflexivity|]. split; [|split].
  - cbn. destruct (drainCallback _); reflexivity.
  - cbn. destruct (drainCallback _); reflexivity.
  - unfold cleanup_calls. cbn. destruct (callback _); reflexivity.
Qed.

(** ** The exit listener is attached once *)
Section ExitHook.

Context {Disk : Type}.
Variable rimrafSync : string -> Disk -> option Error * Disk.

Lemma same_flags_hook (w w' : @World Disk) : same_flags w w' -> same_hook w w'.
Proof. intros (_ & Ha & Hn & _). split; assumption. Qed.

Lemma same_hook_consistent (w w' : @World Disk) :
  same_hook w w' -> hook_consistent w -> hook_consistent w'.
Proof. unfold same_hook, hook_consistent. intros [Ha Hn] H. rewrite Ha, Hn. exact H. Qed.

Lemma cleanupSync_flags (w w' : @World Disk) (r : Result (FalseOr Stats)) :
  cleanupSync rimrafSync w = (r, w') -> same_flags w w'.
Proof.
  unfold cleanupSync. intros H.
  destruct (negb (tracking w)) eqn:Ht; [inversion H; apply same_flags_refl|].
  unfold bind at 1 in H. unfold cleanupFilesSync in H. rewrite Ht in H.
  unfold bind at 1 in H.
  destruct (shiftFiles rimrafSync (filesToDelete w) 0 w) as [[n|e] w1] eqn:Hf;
    apply shiftFiles_frame in Hf; destruct Hf as [Hf _];
    [|inversion H; subst; exact Hf].
  unfold ret at 1 in H. unfold bind at 1 in H. unfold cleanupDirsSync in H.
  destruct (negb (tracking w1)); [inversion H; subst; exact Hf|].
  unfold bind at 1 in H.
  destruct (shiftDirs rimrafSync (dirsToDelete w1) 0 w1) as [[m|e] w2] eqn:Hg;
    apply shiftDirs_frame in Hg; destruct Hg as [Hg _];
    inversion H; subst; eapply same_flags_trans; eassumption.
Qed.

Lemma dispatchFiles_flags (pending : list string) :
  forall w : @World Disk, same_flags w (dispatchFiles pending w).
Proof.
  induction pending as [|p rest IH]; intros w; simpl; [apply same_flags_refl|].
  eapply same_flags_trans; [|apply IH]. repeat split.
Qed.

Lemma dispatchDirs_flags (pending : list string) :
  forall w : @World Disk, same_flags w (dispatchDirs pending w).
Proof.
  induction pending as [|p rest IH]; intros w; simpl; [apply same_flags_refl|].
  eapply same_flags_trans; [|apply IH]. repeat split.
Qed.

(** Only a registration can touch the listener bookkeeping. *)
Lemma step_same_hook (o : Op) (w : @World Disk) :
  (forall p, o <> CreatedFile p) -> (forall p, o <> CreatedDir p) ->
  same_hook w (step rimrafSync o w).
Proof.
  intros Hf Hd. destruct o as [v|p|p| | | |]; simpl.
  - split; reflexivity.
  - exfalso. apply (Hf p). reflexivity.
  - exfalso. apply (Hd p). reflexivity.
  - destruct (cleanupSync rimrafSync w) as [r w'] eqn:H.
    apply cleanupSync_flags in H. apply same_flags_hook. exact H.
  - unfold cleanupFiles. destruct (negb (tracking w)); [split; reflexivity|].
    destruct (List.length (filesToDelete w) =? 0)%nat; [split; reflexivity|].
    apply same_flags_hook. apply dispatchFiles_flags.
  - unfold cleanupDirs. destruct (negb (tracking w)); [split; reflexivity|].
    destruct (List.length (dirsToDelete w) =? 0)%nat; [split; reflexivity|].
    apply same_flags_hook. apply dispatchDirs_flags.
  - unfold exitListener. destruct (cleanupSync rimrafSync w) as [[r|e] w'] eqn:H;
      apply cleanupSync_flags in H; apply same_flags_hook in H; exact H.
Qed.

Lemma register_hook (w : @World Disk) (p : string) :
  hook_consistent w ->
  hook_consistent (deleteFileOnExit p w) /\ hook_consistent (deleteDirOnExit p w) /\
  (exitListenerAttached w = true ->
   same_hook w (deleteFileOnExit p w) /\ same_hook w (deleteDirOnExit p w)) /\
  (tracking w = true ->
   exitListenerAttached (deleteFileOnExit p w) = true /\
   exitListenerAttached (deleteDirOnExit p w) = true).
Proof.
  unfold hook_consistent, same_hook, deleteFileOnExit, deleteDirOnExit,
    attachExitListener.
  destruct w as [t a fs ds n rs ws dk]; simpl. intros H.
  destruct t, a; simpl; subst n; repeat split; intros; try reflexivity; discriminate.
Qed.

Lemma step_hook (o : Op) (w : @World Disk) :
  hook_consistent w ->
  hook_consistent (step rimrafSync o w) /\
  (exitListenerAttached w = true -> same_hook w (step rimrafSync o w)).
Proof.
  intros H.
  destruct o as [v|p|p| | | |];
    try (match goal with
         | |- hook_consistent (step _ ?op _) /\ _ =>
             assert (Hs : same_hook w (step rimrafSync op w))
               by (apply step_same_hook; intros; discriminate)
         end;
         split; [eapply same_hook_consistent; eassumption | intros _; exact Hs]).
  - destruct (register_hook w p H) as (Hf & _ & Hs & _).
    split; [exact Hf | intros Ha; apply (proj1 (Hs Ha))].
  - destruct (register_hook w p H) as (_ & Hd & Hs & _).
    split; [exact Hd | intros Ha; apply (proj2 (Hs Ha))].
Qed.

Lemma run_hook (ops : list Op) :
  forall w : @World Disk,
    hook_consistent w -> hook_consistent (run rimrafSync ops w).
Proof.
  unfold run. induction ops as [|o rest IH]; intros w H; simpl; [exact H|].
  apply IH. apply step_hook. exact H.
Qed.

End ExitHook.

(** C5. In every run of the module from its initial state the number of
    exit listeners agrees with [exitListenerAttached], so it is at most one.
    A registration made with tracking on leaves the flag set; once the flag
    is set no operation resets it or adds a listener. *)
Theorem exit_listener_attached_at_most_once {Disk : Type}
        (rimrafSync : string -> Disk -> option Error * Disk)
        (d : Disk) (ops : list Op) (o : Op) (p : string) :
  let w := run rimrafSync ops (initial d) in
  exitListeners w <= 1 /\
  exitListeners w = (if exitListenerAttached w then 1 else 0) /\
  (tracking w = true ->
   exitListenerAttached (deleteFileOnExit p w) = true /\
   exitListeners (deleteFileOnExit p w) = 1 /\
   exitListenerAttached (deleteDirOnExit p w) = true /\
   exitListeners (deleteDirOnExit p w) = 1) /\
  (exitListenerAttached w = true ->
   exitListenerAttached (step rimrafSync o w) = true /\
   exitListeners (step rimrafSync o w) = 1).
Proof.
  intros w.
  assert (H : hook_consistent w) by (apply run_hook; reflexivity).
  split; [unfold hook_consistent in H; destruct (exitListenerAttached w); lia|].
  split; [exact H|]. split.
  - intros Ht. destruct (register_hook w p H) as (Hf & Hd & _ & Ha).
    destruct (Ha Ht) as [Haf Had]. unfold hook_consistent in Hf, Hd.
    rewrite Haf in Hf. rewrite Had in Hd. repeat split; assumption.
  - intros Ha. destruct (step_hook rimrafSync o w H) as [_ Hs].
    destruct (Hs Ha) as [Ha' Hn]. unfold hook_consistent in H. rewrite Ha in H.
    split; congruence.
Qed.

Lemma exit_listener_attached_at_most_once_witness :
  let w :=
    run Sample.rimrafSync
      (CallTrack JUndefined :: repeat (CreatedFile "/tmp/f") 100)
      Sample.fresh in
  List.length (filesToDelete w) = 100 /\
  exitListeners w = 1 /\
  exitListeners (step Sample.rimrafSync (CreatedDir "/tmp/d") w) = 1.
Proof.
  intro w.
  pose proof (exit_listener_attached_at_most_once Sample.rimrafSync (@nil string)
                (CallTrack JUndefined :: repeat (CreatedFile "/tmp/f") 100)
                (CreatedDir "/tmp/d") "/tmp/f") as (_ & Hn & _ & Hs).
  split; [vm_compute; reflexivity|]. split.
  - exact Hn.
  - exact (proj2 (Hs eq_refl)).
Defined.

(** ** Name generation *)

(** C3, as the code has it.  [generateName] throws its "Unknown affix
    declaration" error for every truthy argument whose [typeof] is neither
    "string" nor "object".  A falsy argument ([undefined], [null], [false],
    [0], [NaN], [0n], the empty string) is taken as absent: the name is the
    one an absent argument gives, it starts with the default prefix, and it
    is returned.  A non-empty string is the prefix; an object is read for
    its own properties. *)
Theorem generateName_rejects_unknown_types_and_defaults_falsy
        (path_join : string -> string -> string) (dir : string) (now : DateParts)
        (pid : nat) (random36 : string)
        (ToStringOther : JsValue -> Result string) (pathArgError : JsValue -> Error)
        (rawAffixes : JsValue) (defaultPrefix : option string) :
  (ToBoolean rawAffixes = true /\
   typeof rawAffixes <> TString /\ typeof rawAffixes <> TObject /\
   generateName path_join dir now pid random36 ToStringOther pathArgError
     rawAffixes defaultPrefix
   = Throw unknownAffix) \/
  (ToBoolean rawAffixes = false /\
   generateName path_join dir now pid random36 ToStringOther pathArgError
     rawAffixes defaultPrefix
   = generateName path_join dir now pid random36 ToStringOther pathArgError
       JUndefined defaultPrefix /\
   generateName path_join dir now pid random36 ToStringOther pathArgError
     rawAffixes defaultPrefix
   = Ret (path_join dir
            (String.concat ""
               [ match defaultPrefix with Some s => s | None => "" end;
                 numberToString (getFullYear now);
                 numberToString (getMonth now);
                 numberToString (getDate now);
                 "-"; numberToString pid; "-"; random36; "" ]))) \/
  (ToBoolean rawAffixes = true /\
   exists s, rawAffixes = JString s /\
   generateName path_join dir now pid random36 ToStringOther pathArgError
     rawAffixes defaultPrefix
   = Ret (path_join dir
            (String.concat ""
               [ s;
                 numberToString (getFullYear now);
                 numberToString (getMonth now);
                 numberToString (getDate now);
                 "-"; numberToString pid; "-"; random36; "" ]))) \/
  (ToBoolean rawAffixes = true /\ typeof rawAffixes = TObject /\
   exists prefix suffix dir',
     parseAffixes rawAffixes defaultPrefix = Ret (mkAffixOptions prefix suffix dir')).
Proof.
  unfold generateName, parseAffixes.
  destruct (ToBoolean rawAffixes) eqn:Hb.
  - destruct rawAffixes as [| |b|x|z|s| | |p sf d]; simpl in Hb; try discriminate Hb;
      simpl typeof; cbv iota;
      try (left; repeat (split; try discriminate); reflexivity).
    + right. right. left. split; [reflexivity|]. exists s. split; reflexivity.
    + right. right. right. split; [reflexivity|]. split; [reflexivity|].
      exists p, sf, d. reflexivity.
  - right. left. split; [reflexivity|]. split; [reflexivity|].
    destruct defaultPrefix; reflexivity.
Qed.

(** What the objects that the interface does not allow come to: a symbol
    as prefix makes [join] throw, and a directory that is truthy and not a
    string makes [path.join] throw. *)
Lemma generateName_ill_typed_object_throws
      (path_join : string -> string -> string) (dir : string) (now : DateParts)
      (pid : nat) (random36 : string)
      (ToStringOther : JsValue -> Result string) (pathArgError : JsValue -> Error)
      (suffix dir' : JsValue) (defaultPrefix : option string) :
  generateName path_join dir now pid random36 ToStringOther pathArgError
    (JObject JSymbol suffix dir') defaultPrefix
  = Throw symbolToString /\
  generateName path_join dir now pid random36 ToStringOther pathArgError
    (JObject JUndefined JUndefined (JBoolean true)) defaultPrefix
  = Throw (pathArgError (JBoolean true)).
Proof. split; reflexivity. Qed.

(** C3 as stated fails: the boolean [false] and the number [0] are neither
    strings nor objects nor absent, and a name comes back. *)
Lemma generateName_accepts_false_and_zero :
  typeof (JBoolean false) = TBoolean /\
  generateName Sample.path_join "/tmp" Sample.now 4242 "1z141z4"
    Sample.ToStringOther Sample.pathArgError
    (JBoolean false) (Some "f-")
  = Ret "/tmp/f-2024015-4242-1z141z4" /\
  typeof (JNumber 0%float) = TNumber /\
  generateName Sample.path_join "/tmp" Sample.now 4242 "1z141z4"
    Sample.ToStringOther Sample.pathArgError
    (JNumber 0%float) (Some "f-")
  = Ret "/tmp/f-2024015-4242-1z141z4".
Proof.
  split; [reflexivity|]. split; [reflexivity|]. split; reflexivity.
Qed.

(** ** Resource factories *)

Section Factories.

Context {Disk : Type}.
Variable mkdirpSync : string -> Disk -> option Error * Disk.
Variable fsOpenSync : string -> Disk -> (Error + nat) * Disk.
Variable path_join : string -> string -> string.
Variable dir : string.
Variable ToStringOther : JsValue -> Result string.
Variable pathArgError : JsValue -> Error.

(** A successful creation does register, when tracking is on. *)
Lemma created_path_is_registered (w : @World Disk) (p : string) (fd : option nat) :
  tracking w = true ->
  dirsToDelete (snd (mkdir_mkdirpCallback p None w)) = (dirsToDelete w ++ [p])%list /\
  filesToDelete (snd (open_fsOpenCallback p None fd w)) = (filesToDelete w ++ [p])%list.
Proof.
  intros Ht. unfold mkdir_mkdirpCallback, open_fsOpenCallback, deleteDirOnExit,
    deleteFileOnExit, attachExitListener. simpl. rewrite Ht. simpl.
  destruct (exitListenerAttached w); split; reflexivity.
Qed.

(** The synchronous factories: whatever makes them throw, nothing was
    registered. *)
Lemma mkdirSync_throw_registers_nothing (now : DateParts) (pid : nat)
      (random36 : string) (affixes : JsValue) (w w' : @World Disk) (e : Error) :
  mkdirSync mkdirpSync path_join dir ToStringOther pathArgError now pid random36 affixes w = (Throw e, w') ->
  filesToDelete w' = filesToDelete w /\ dirsToDelete w' = dirsToDelete w /\
  same_hook w w'.
Proof.
  unfold mkdirSync. intros H.
  destruct (generateName path_join dir now pid random36 ToStringOther pathArgError affixes (Some "d-"));
    [|inversion H; subst; repeat split].
  destruct (mkdirpSync a (disk w)) as [[e'|] d]; inversion H; subst; repeat split.
Qed.

Lemma openSync_throw_registers_nothing (now : DateParts) (pid : nat)
      (random36 : string) (affixes : JsValue) (w w' : @World Disk) (e : Error) :
  openSync fsOpenSync path_join dir ToStringOther pathArgError now pid random36 affixes w = (Throw e, w') ->
  filesToDelete w' = filesToDelete w /\ dirsToDelete w' = dirsToDelete w /\
  same_hook w w'.
Proof.
  unfold openSync. intros H.
  destruct (generateName path_join dir now pid random36 ToStringOther pathArgError affixes (Some "f-"));
    [|inversion H; subst; repeat split].
  destruct (fsOpenSync a (disk w)) as [[e'|n] d]; inversion H; subst; repeat split.
Qed.

End Factories.

(** C8. When mkdirp (for [mkdir]) or [fs.open] (for [open]) reports an
    error, the callback of the factory passes that error on and the world is
    as it was: neither list has grown. *)
Theorem failed_creation_registers_nothing {Disk : Type} (w : @World Disk)
        (dirPath path : string) (e : Error) (fd : option nat) :
  mkdir_mkdirpCallback dirPath (Some e) w = (mkMkdirCall (Some e) dirPath, w) /\
  open_fsOpenCallback path (Some e) fd w
  = (mkOpenCall (Some e) (mkOpenFile path fd), w).
Proof.
  unfold mkdir_mkdirpCallback, open_fsOpenCallback. split; reflexivity.
Qed.

(** * Further properties *)

(** ** Order and partial failure of the synchronous drains *)
Section SyncOrder.

Context {Disk : Type}.
Variable rimrafSync : string -> Disk -> option Error * Disk.

Lemma shiftFiles_completes (pending : list string) :
  Forall (removable rimrafSync) pending ->
  forall count w, exists w',
    shiftFiles rimrafSync pending count w = (Ret (count + List.length pending), w') /\
    removals w' = (removals w ++ map RimrafSync pending)%list.
Proof.
  induction 1 as [|p rest Hp _ IH]; intros c w; simpl.
  - exists w. unfold ret. rewrite Nat.add_0_r, app_nil_r. split; reflexivity.
  - unfold bind, modify, callRimrafSync; simpl.
    specialize (Hp (disk w)).
    destruct (rimrafSync p (disk w)) as [o d]; simpl in Hp; subst o.
    edestruct IH as [w' [Hw' Hr]]. rewrite Hw'. exists w'.
    split; [f_equal; f_equal; lia|].
    rewrite Hr. simpl. rewrite <- app_assoc. reflexivity.
Qed.

Lemma shiftDirs_completes (pending : list string) :
  Forall (removable rimrafSync) pending ->
  forall count w, exists w',
    shiftDirs rimrafSync pending count w = (Ret (count + List.length pending), w') /\
    removals w' = (removals w ++ map RimrafSync pending)%list.
Proof.
  induction 1 as [|p rest Hp _ IH]; intros c w; simpl.
  - exists w. unfold ret. rewrite Nat.add_0_r, app_nil_r. split; reflexivity.
  - unfold bind, modify, callRimrafSync; simpl.
    specialize (Hp (disk w)).
    destruct (rimrafSync p (disk w)) as [o d]; simpl in Hp; subst o.
    edestruct IH as [w' [Hw' Hr]]. rewrite Hw'. exists w'.
    split; [f_equal; f_equal; lia|].
    rewrite Hr. simpl. rewrite <- app_assoc. reflexivity.
Qed.

(** The loop stops at the first entry that rimraf gives up on; that entry
    has left the list, the ones behind it have not. *)
Lemma shiftFiles_stops (pre post : list string) (p : string) (e : Error) :
  Forall (removable rimrafSync) pre ->
  (forall d, fst (rimrafSync p d) = Some e) ->
  forall count w, exists w',
    shiftFiles rimrafSync (pre ++ p :: post) count w = (Throw e, w') /\
    filesToDelete w' = post /\
    removals w' = (removals w ++ map RimrafSync (pre ++ [p]))%list.
Proof.
  intros Hpre Hp. induction Hpre as [|q rest Hq _ IH]; intros c w; simpl.
  - unfold bind, modify, callRimrafSync; simpl.
    specialize (Hp (disk w)).
    destruct (rimrafSync p (disk w)) as [o d]; simpl in Hp; subst o.
    eexists. split; [reflexivity|]. split; reflexivity.
  - unfold bind, modify, callRimrafSync; simpl.
    specialize (Hq (disk w)).
    destruct (rimrafSync q (disk w)) as [o d]; simpl in Hq; subst o.
    edestruct IH as [w' (Hw' & Hl & Hr)]. rewrite Hw'. exists w'.
    split; [reflexivity|]. split; [exact Hl|].
    rewrite Hr. simpl. rewrite <- app_assoc. reflexivity.
Qed.

Lemma shiftDirs_stops (pre post : list string) (p : string) (e : Error) :
  Forall (removable rimrafSync) pre ->
  (forall d, fst (rimrafSync p d) = Some e) ->
  forall count w, exists w',
    shiftDirs rimrafSync (pre ++ p :: post) count w = (Throw e, w') /\
    dirsToDelete w' = post /\
    removals w' = (removals w ++ map RimrafSync (pre ++ [p]))%list.
Proof.
  intros Hpre Hp. induction Hpre as [|q rest Hq _ IH]; intros c w; simpl.
  - unfold bind, modify, callRimrafSync; simpl.
    specialize (Hp (disk w)).
    destruct (rimrafSync p (disk w)) as [o d]; simpl in Hp; subst o.
    eexists. split; [reflexivity|]. split; reflexivity.
  - unfold bind, modify, callRimrafSync; simpl.
    specialize (Hq (disk w)).
    destruct (rimrafSync q (disk w)) as [o d]; simpl in Hq; subst o.
    edestruct IH as [w' (Hw' & Hl & Hr)]. rewrite Hw'. exists w'.
    split; [reflexivity|]. split; [exact Hl|].
    rewrite Hr. simpl. rewrite <- app_assoc. reflexivity.
Qed.

(** X1. With tracking on and every pending path removable, [cleanupSync]
    returns the two list lengths, leaves both lists empty, and has asked
    rimraf for the files in registration order and then for the
    directories in registration order. *)
Theorem cleanupSync_removes_files_then_dirs_in_order (w : @World Disk) :
  tracking w = true ->
  Forall (removable rimrafSync) (filesToDelete w) ->
  Forall (removable rimrafSync) (dirsToDelete w) ->
  exists w',
    cleanupSync rimrafSync w
    = (Ret (Val (mkStats (Cnt (List.length (filesToDelete w)))
                         (Cnt (List.length (dirsToDelete w))))), w') /\
    filesToDelete w' = [] /\ dirsToDelete w' = [] /\
    removals w'
    = (removals w ++ map RimrafSync (filesToDelete w)
                  ++ map RimrafSync (dirsToDelete w))%list.
Proof.
  intros Ht Hf Hd.
  destruct (shiftFiles_completes _ Hf 0 w) as [w1 [H1 Hr1]].
  destruct (shiftFiles_frame _ _ _ _ _ _ H1) as [(Ht1 & _) Hd1].
  destruct (shiftFiles_returns _ _ _ _ _ _ eq_refl H1) as [Hnil1 _].
  rewrite <- Hd1 in Hd.
  destruct (shiftDirs_completes _ Hd 0 w1) as [w2 [H2 Hr2]].
  destruct (shiftDirs_frame _ _ _ _ _ _ H2) as [_ Hf2].
  destruct (shiftDirs_returns _ _ _ _ _ _ eq_refl H2) as [Hnil2 _].
  exists w2. split; [|split; [congruence|split; [assumption|]]].
  - unfold cleanupSync. rewrite Ht. simpl.
    unfold bind at 1. unfold cleanupFilesSync. rewrite Ht. simpl.
    unfold bind at 1. rewrite H1. unfold ret at 1. unfold bind at 1.
    unfold cleanupDirsSync. rewrite Ht1, Ht. simpl. unfold bind at 1. rewrite H2.
    unfold ret. simpl. rewrite Hd1. reflexivity.
  - rewrite Hr2, Hr1, Hd1, <- app_assoc. reflexivity.
Qed.

(** X2. When rimraf gives up on a file, [cleanupSync] throws that error.
    The failing entry has left the list all the same, the entries behind it
    are still pending, no directory was touched, and an exit listener in
    the same state warns once with the error and throws it again. *)
Theorem cleanupSync_stops_at_first_failing_file
        (w : @World Disk) (pre post : list string) (p : string) (e : Error) :
  tracking w = true ->
  filesToDelete w = (pre ++ p :: post)%list ->
  Forall (removable rimrafSync) pre ->
  (forall d, fst (rimrafSync p d) = Some e) ->
  exists w',
    cleanupSync rimrafSync w = (Throw e, w') /\
    filesToDelete w' = post /\
    dirsToDelete w' = dirsToDelete w /\
    removals w' = (removals w ++ map RimrafSync (pre ++ [p]))%list /\
    exitListener rimrafSync w = (Throw e, warn e w') /\
    warnings (warn e w') = (warnings w ++ [e])%list.
Proof.
  intros Ht Hl Hpre Hp.
  destruct (shiftFiles_stops pre post p e Hpre Hp 0 w) as [w1 (H1 & Hl1 & Hr1)].
  destruct (shiftFiles_frame _ _ _ _ _ _ H1) as [(_ & _ & _ & Hw) Hd1].
  assert (Hc : cleanupSync rimrafSync w = (Throw e, w1)).
  { unfold cleanupSync. rewrite Ht. simpl.
    unfold bind at 1. unfold cleanupFilesSync. rewrite Ht. simpl.
    unfold bind at 1. rewrite Hl, H1. reflexivity. }
  exists w1. split; [exact Hc|]. split; [exact Hl1|]. split; [exact Hd1|].
  split; [exact Hr1|]. split.
  - unfold exitListener. rewrite Hc. reflexivity.
  - simpl. rewrite Hw. reflexivity.
Qed.

(** X3. When every file is removable and rimraf gives up on a directory,
    [cleanupSync] throws after the file list has been emptied; the
    directories behind the failing one are still pending. *)
Theorem cleanupSync_stops_at_first_failing_dir
        (w : @World Disk) (pre post : list string) (p : string) (e : Error) :
  tracking w = true ->
  Forall (removable rimrafSync) (filesToDelete w) ->
  dirsToDelete w = (pre ++ p :: post)%list ->
  Forall (removable rimrafSync) pre ->
  (forall d, fst (rimrafSync p d) = Some e) ->
  exists w',
    cleanupSync rimrafSync w = (Throw e, w') /\
    filesToDelete w' = [] /\
    dirsToDelete w' = post /\
    removals w'
    = (removals w ++ map RimrafSync (filesToDelete w)
                  ++ map RimrafSync (pre ++ [p]))%list.
Proof.
  intros Ht Hf Hl Hpre Hp.
  destruct (shiftFiles_completes _ Hf 0 w) as [w1 [H1 Hr1]].
  destruct (shiftFiles_frame _ _ _ _ _ _ H1) as [(Ht1 & _) Hd1].
  destruct (shiftFiles_returns _ _ _ _ _ _ eq_refl H1) as [Hnil1 _].
  destruct (shiftDirs_stops pre post p e Hpre Hp 0 w1) as [w2 (H2 & Hl2 & Hr2)].
  destruct (shiftDirs_frame _ _ _ _ _ _ H2) as [_ Hf2].
  exists w2. split; [|split; [congruence|split; [assumption|]]].
  - unfold cleanupSync. rewrite Ht. simpl.
    unfold bind at 1. unfold cleanupFilesSync. rewrite Ht. simpl.
    unfold bind at 1. rewrite H1. unfold ret at 1. unfold bind at 1.
    unfold cleanupDirsSync. rewrite Ht1, Ht. simpl. unfold bind at 1.
    rewrite Hd1, Hl, H2. reflexivity.
  - rewrite Hr2, Hr1, <- app_assoc. reflexivity.
Qed.

End SyncOrder.

Lemma cleanupSync_removes_files_then_dirs_in_order_witness :
  exists w',
    cleanupSync Sample.rimrafSync Sample.busy
    = (Ret (Val (mkStats (Cnt 2) (Cnt 1))), w') /\
    removals w'
    = [RimrafSync "/tmp/f-1"; RimrafSync "/tmp/f-2"; RimrafSync "/tmp/d-1"].
Proof.
  destruct (cleanupSync_removes_files_then_dirs_in_order Sample.rimrafSync Sample.busy)
    as [w' (H & _ & _ & Hr)].
  - reflexivity.
  - repeat constructor; intro d; reflexivity.
  - repeat constructor; intro d; reflexivity.
  - exists w'. split; [exact H | exact Hr].
Defined.

Lemma cleanupSync_stops_at_first_failing_file_witness :
  exists w',
    cleanupSync Sample.rimrafSync
      (deleteFileOnExit "/tmp/f-3" (deleteFileOnExit Sample.busyPath Sample.busy))
    = (Throw Sample.EBUSY, w') /\
    filesToDelete w' = ["/tmp/f-3"] /\
    dirsToDelete w' = ["/tmp/d-1"].
Proof.
  destruct (cleanupSync_stops_at_first_failing_file Sample.rimrafSync
              (deleteFileOnExit "/tmp/f-3" (deleteFileOnExit Sample.busyPath Sample.busy))
              ["/tmp/f-1"; "/tmp/f-2"] ["/tmp/f-3"] Sample.busyPath Sample.EBUSY)
    as [w' (H & Hf & Hd & _)].
  - reflexivity.
  - reflexivity.
  - repeat constructor; intro d; reflexivity.
  - intro d; reflexivity.
  - exists w'. split; [exact H|]. split; [exact Hf | exact Hd].
Defined.

Lemma cleanupSync_stops_at_first_failing_dir_witness :
  exists w',
    cleanupSync Sample.rimrafSync
      (deleteDirOnExit "/tmp/d-2" (deleteDirOnExit Sample.busyPath Sample.busy))
    = (Throw Sample.EBUSY, w') /\
    filesToDelete w' = [] /\
    dirsToDelete w' = ["/tmp/d-2"].
Proof.
  destruct (cleanupSync_stops_at_first_failing_dir Sample.rimrafSync
              (deleteDirOnExit "/tmp/d-2" (deleteDirOnExit Sample.busyPath Sample.busy))
              ["/tmp/d-1"] ["/tmp/d-2"] Sample.busyPath Sample.EBUSY)
    as [w' (H & Hf & Hd & _)].
  - reflexivity.
  - repeat constructor; intro d; reflexivity.
  - reflexivity.
  - repeat constructor; intro d; reflexivity.
  - intro d; reflexivity.
  - exists w'. split; [exact H|]. split; [exact Hf | exact Hd].
Defined.

(** ** Registration and the tracking gate *)
Section Registry.

Context {Disk : Type}.
Variable rimrafSync : string -> Disk -> option Error * Disk.

Lemma deleteFileOnExit_tracking (w : @World Disk) (p : string) :
  tracking w = true ->
  filesToDelete (deleteFileOnExit p w) = (filesToDelete w ++ [p])%list /\
  dirsToDelete (deleteFileOnExit p w) = dirsToDelete w /\
  tracking (deleteFileOnExit p w) = true /\
  removals (deleteFileOnExit p w) = removals w /\
  disk (deleteFileOnExit p w) = disk w.
Proof.
  intros Ht. unfold deleteFileOnExit, attachExitListener. rewrite Ht. simpl.
  destruct (exitListenerAttached w); simpl; repeat split; assumption.
Qed.

Lemma deleteDirOnExit_tracking (w : @World Disk) (p : string) :
  tracking w = true ->
  filesToDelete (deleteDirOnExit p w) = filesToDelete w /\
  dirsToDelete (deleteDirOnExit p w) = (dirsToDelete w ++ [p])%list /\
  tracking (deleteDirOnExit p w) = true /\
  removals (deleteDirOnExit p w) = removals w /\
  disk (deleteDirOnExit p w) = disk w.
Proof.
  intros Ht. unfold deleteDirOnExit, attachExitListener. rewrite Ht. simpl.
  destruct (exitListenerAttached w); simpl; repeat split; assumption.
Qed.

(** X4. With tracking on, a run of creations appends every created file
    and every created directory to its list, in creation order and with
    repetitions kept; nothing is removed meanwhile. *)
Theorem creations_are_appended_in_order (ops : list Op) :
  forall w : @World Disk,
    tracking w = true ->
    forallb isCreation ops = true ->
    filesToDelete (run rimrafSync ops w) = (filesToDelete w ++ createdFiles ops)%list /\
    dirsToDelete (run rimrafSync ops w) = (dirsToDelete w ++ createdDirs ops)%list /\
    removals (run rimrafSync ops w) = removals w.
Proof.
  unfold run. induction ops as [|o rest IH]; intros w Ht Hc; simpl.
  - rewrite !app_nil_r. repeat split.
  - simpl in Hc. apply andb_prop in Hc. destruct Hc as [Ho Hrest].
    destruct o as [v|p|p| | | |]; try discriminate Ho; simpl.
    + destruct (deleteFileOnExit_tracking w p Ht) as (Hf & Hd & Ht' & Hr & _).
      destruct (IH _ Ht' Hrest) as (IHf & IHd & IHr).
      rewrite IHf, IHd, IHr, Hf, Hd, Hr, <- app_assoc. repeat split.
    + destruct (deleteDirOnExit_tracking w p Ht) as (Hf & Hd & Ht' & Hr & _).
      destruct (IH _ Ht' Hrest) as (IHf & IHd & IHr).
      rewrite IHf, IHd, IHr, Hf, Hd, Hr, <- app_assoc. repeat split.
Qed.

Lemma step_not_tracking (o : Op) (w : @World Disk) :
  tracking w = false -> isTrack o = false -> step rimrafSync o w = w.
Proof.
  intros Ht Ho. destruct o as [v|p|p| | | |]; try discriminate Ho; simpl.
  - unfold deleteFileOnExit. rewrite Ht. reflexivity.
  - unfold deleteDirOnExit. rewrite Ht. reflexivity.
  - unfold cleanupSync. rewrite Ht. reflexivity.
  - unfold cleanupFiles. rewrite Ht. reflexivity.
  - unfold cleanupDirs. rewrite Ht. reflexivity.
  - unfold exitListener, cleanupSync. rewrite Ht. reflexivity.
Qed.

(** X5. While tracking is off the module is inert: registrations, the
    three kinds of cleanup and the exit listener leave the whole state as it
    was, so no path is recorded, no listener attached and no removal
    requested until [track] is called. *)
Theorem module_is_inert_while_not_tracking (ops : list Op) :
  forall w : @World Disk,
    tracking w = false ->
    forallb (fun o => negb (isTrack o)) ops = true ->
    run rimrafSync ops w = w.
Proof.
  unfold run. induction ops as [|o rest IH]; intros w Ht Hc; simpl; [reflexivity|].
  simpl in Hc. apply andb_prop in Hc. destruct Hc as [Ho Hrest].
  apply negb_true_iff in Ho.
  rewrite step_not_tracking by assumption. apply IH; assumption.
Qed.

(** X6. Only [track] changes the tracking flag: after any run without a
    call of [track] the flag is what it was. *)
Theorem only_track_changes_tracking (ops : list Op) :
  forall w : @World Disk,
    forallb (fun o => negb (isTrack o)) ops = true ->
    tracking (run rimrafSync ops w) = tracking w.
Proof.
  unfold run. induction ops as [|o rest IH]; intros w Hc; simpl; [reflexivity|].
  simpl in Hc. apply andb_prop in Hc. destruct Hc as [Ho Hrest].
  apply negb_true_iff in Ho. rewrite IH by assumption.
  destruct (tracking w) eqn:Ht.
  - destruct o as [v|p|p| | | |]; try discriminate Ho; simpl.
    + apply deleteFileOnExit_tracking. exact Ht.
    + apply deleteDirOnExit_tracking. exact Ht.
    + destruct (cleanupSync rimrafSync w) as [r w'] eqn:H.
      apply cleanupSync_flags in H. destruct H as (H & _). simpl. congruence.
    + unfold cleanupFiles. rewrite Ht. simpl.
      destruct (List.length (filesToDelete w) =? 0)%nat; simpl; [exact Ht|].
      destruct (dispatchFiles_flags (filesToDelete w) w) as (H & _). congruence.
    + unfold cleanupDirs. rewrite Ht. simpl.
      destruct (List.length (dirsToDelete w) =? 0)%nat; simpl; [exact Ht|].
      destruct (dispatchDirs_flags (dirsToDelete w) w) as (H & _). congruence.
    + unfold exitListener.
      destruct (cleanupSync rimrafSync w) as [[r|e] w'] eqn:H;
        apply cleanupSync_flags in H; destruct H as (H & _); simpl; congruence.
  - rewrite step_not_tracking by assumption. exact Ht.
Qed.

End Registry.

Lemma creations_are_appended_in_order_witness :
  filesToDelete
    (run Sample.rimrafSync
       [CreatedFile "/tmp/f-3"; CreatedDir "/tmp/d-2"; CreatedFile "/tmp/f-1"]
       Sample.busy)
  = ["/tmp/f-1"; "/tmp/f-2"; "/tmp/f-3"; "/tmp/f-1"].
Proof.
  exact (proj1 (creations_are_appended_in_order Sample.rimrafSync
                  [CreatedFile "/tmp/f-3"; CreatedDir "/tmp/d-2"; CreatedFile "/tmp/f-1"]
                  Sample.busy eq_refl eq_refl)).
Defined.

Lemma module_is_inert_while_not_tracking_witness :
  run Sample.rimrafSync
    [CreatedFile "/tmp/f-1"; CallCleanupSync; CreatedDir "/tmp/d-1"; CallCleanupFiles;
     RunExitListener]
    Sample.fresh
  = Sample.fresh.
Proof.
  exact (module_is_inert_while_not_tracking Sample.rimrafSync
           [CreatedFile "/tmp/f-1"; CallCleanupSync; CreatedDir "/tmp/d-1";
            CallCleanupFiles; RunExitListener]
           Sample.fresh eq_refl eq_refl).
Defined.

Lemma only_track_changes_tracking_witness :
  tracking
    (run Sample.rimrafSync
       [CreatedFile "/tmp/f-3"; CallCleanupSync; CallCleanupDirs; RunExitListener]
       Sample.busy)
  = true.
Proof.
  exact (only_track_changes_tracking Sample.rimrafSync
           [CreatedFile "/tmp/f-3"; CallCleanupSync; CallCleanupDirs; RunExitListener]
           Sample.busy eq_refl).
Defined.

(** ** Dispatch of the asynchronous drains *)
Section Dispatch.

Context {Disk : Type}.

Lemma dispatchFiles_effect (pending : list string) :
  forall w : @World Disk,
    filesToDelete w = pending ->
    filesToDelete (dispatchFiles pending w) = [] /\
    dirsToDelete (dispatchFiles pending w) = dirsToDelete w /\
    removals (dispatchFiles pending w) = (removals w ++ map Rimraf pending)%list /\
    disk (dispatchFiles pending w) = disk w.
Proof.
  induction pending as [|p rest IH]; intros w Hl; simpl.
  - rewrite app_nil_r. repeat split. exact Hl.
  - destruct (IH (request (Rimraf p) (set_filesToDelete rest w)) eq_refl)
      as (Hf & Hd & Hr & Hk).
    rewrite Hf, Hd, Hr, Hk. simpl. rewrite <- app_assoc. repeat split.
Qed.

Lemma dispatchDirs_effect (pending : list string) :
  forall w : @World Disk,
    dirsToDelete w = pending ->
    dirsToDelete (dispatchDirs pending w) = [] /\
    filesToDelete (dispatchDirs pending w) = filesToDelete w /\
    removals (dispatchDirs pending w) = (removals w ++ map Rimraf pending)%list /\
    disk (dispatchDirs pending w) = disk w.
Proof.
  induction pending as [|p rest IH]; intros w Hl; simpl.
  - rewrite app_nil_r. repeat split. exact Hl.
  - destruct (IH (request (Rimraf p) (set_dirsToDelete rest w)) eq_refl)
      as (Hf & Hd & Hr & Hk).
    rewrite Hf, Hd, Hr, Hk. simpl. rewrite <- app_assoc. repeat split.
Qed.

(** X7. With tracking on, [cleanupFiles] takes every pending file off the
    list before it returns and hands them to rimraf in registration order,
    one request each, without touching the directories; it waits for as
    many reports as there were files, or calls back with 0 at once when
    there were none.  A file registered afterwards is alone on the list.
    [cleanupDirs] does the same with the directories. *)
Theorem async_drains_empty_the_list_at_dispatch (w : @World Disk) (p : string) :
  tracking w = true ->
  (fst (cleanupFiles w)
   = (if (List.length (filesToDelete w) =? 0)%nat
      then CalledBack (mkDrainCall None (Cnt 0))
      else InFlight (mkDrain 0 (List.length (filesToDelete w)))) /\
   filesToDelete (snd (cleanupFiles w)) = [] /\
   dirsToDelete (snd (cleanupFiles w)) = dirsToDelete w /\
   removals (snd (cleanupFiles w))
   = (removals w ++ map Rimraf (filesToDelete w))%list /\
   filesToDelete (deleteFileOnExit p (snd (cleanupFiles w))) = [p]) /\
  (fst (cleanupDirs w)
   = (if (List.length (dirsToDelete w) =? 0)%nat
      then CalledBack (mkDrainCall None (Cnt 0))
      else InFlight (mkDrain 0 (List.length (dirsToDelete w)))) /\
   dirsToDelete (snd (cleanupDirs w)) = [] /\
   filesToDelete (snd (cleanupDirs w)) = filesToDelete w /\
   removals (snd (cleanupDirs w))
   = (removals w ++ map Rimraf (dirsToDelete w))%list /\
   dirsToDelete (deleteDirOnExit p (snd (cleanupDirs w))) = [p]).
Proof.
  intros Ht. split.
  - unfold cleanupFiles. rewrite Ht. simpl.
    destruct (filesToDelete w) as [|q rest] eqn:Hl.
    + simpl. rewrite Hl, app_nil_r. repeat split.
      unfold deleteFileOnExit, attachExitListener. rewrite Ht. simpl.
      destruct (exitListenerAttached w); simpl; rewrite Hl; reflexivity.
    + cbn [List.length Nat.eqb fst snd]. rewrite <- Hl.
      destruct (dispatchFiles_effect (filesToDelete w) w eq_refl) as (Hf & Hd & Hr & _).
      split; [reflexivity|]. split; [exact Hf|]. split; [exact Hd|].
      split; [exact Hr|].
      destruct (dispatchFiles_flags (filesToDelete w) w) as (Ht' & _).
      rewrite Ht in Ht'.
      destruct (deleteFileOnExit_tracking _ p Ht') as (H & _). rewrite H, Hf.
      reflexivity.
  - unfold cleanupDirs. rewrite Ht. simpl.
    destruct (dirsToDelete w) as [|q rest] eqn:Hl.
    + simpl. rewrite Hl, app_nil_r. repeat split.
      unfold deleteDirOnExit, attachExitListener. rewrite Ht. simpl.
      destruct (exitListenerAttached w); simpl; rewrite Hl; reflexivity.
    + cbn [List.length Nat.eqb fst snd]. rewrite <- Hl.
      destruct (dispatchDirs_effect (dirsToDelete w) w eq_refl) as (Hd & Hf & Hr & _).
      split; [reflexivity|]. split; [exact Hd|]. split; [exact Hf|].
      split; [exact Hr|].
      destruct (dispatchDirs_flags (dirsToDelete w) w) as (Ht' & _).
      rewrite Ht in Ht'.
      destruct (deleteDirOnExit_tracking _ p Ht') as (_ & H & _). rewrite H, Hd.
      reflexivity.
Qed.

End Dispatch.

Lemma async_drains_empty_the_list_at_dispatch_witness :
  fst (cleanupFiles Sample.busy) = InFlight (mkDrain 0 2) /\
  removals (snd (cleanupFiles Sample.busy)) = [Rimraf "/tmp/f-1"; Rimraf "/tmp/f-2"] /\
  filesToDelete (deleteFileOnExit "/tmp/f-9" (snd (cleanupFiles Sample.busy)))
  = ["/tmp/f-9"].
Proof.
  destruct (async_drains_empty_the_list_at_dispatch Sample.busy "/tmp/f-9" eq_refl)
    as [(H1 & _ & _ & H2 & H3) _].
  split; [exact H1|]. split; [exact H2 | exact H3].
Defined.

(** ** The two stages of the combined cleanup *)
Section Stages.

Context {Disk : Type}.
Variable rimrafSync : string -> Disk -> option Error * Disk.
Variable callback : CleanupCall -> Outcome.

(** Reports for the directory drain go through its [rimrafCallback] and
    from there to the inner callback of [cleanup]. *)
Lemma dir_reports_deliver (reports : list (option Error)) :
  forall (fd dd : Drain) (fc : JsCount) (w : @World Disk),
    cleanup_events rimrafSync callback (dirReports reports) (mkTask fd fc dd) w
    = (map (cleanup_dirsCallback fc)
           (fst (deliver (cleanupDirs_rimrafCallback
                            (fun c => callback (cleanup_dirsCallback fc c)))
                         reports dd)),
       mkTask fd fc
         (snd (deliver (cleanupDirs_rimrafCallback
                          (fun c => callback (cleanup_dirsCallback fc c)))
                       reports dd)),
       w).
Proof.
  induction reports as [|err rest IH]; intros fd dd fc w; [reflexivity|].
  cbn [dirReports map cleanup_events cleanup_report deliver fileDrain fileCount dirDrain].
  destruct (cleanupDirs_rimrafCallback _ err dd) as [c d1].
  fold (dirReports rest). destruct c as [c|]; rewrite IH;
    match goal with
    | |- context [deliver ?f rest d1] => destruct (deliver f rest d1)
    end; reflexivity.
Qed.

(** The file drain of a [cleanup] whose removals all succeed: nothing
    happens until the last report, which runs the outer callback. *)
Lemma file_reports_all_removed (j : nat) :
  forall (fd dd : Drain) (fc : JsCount) (w : @World Disk) (evs : list Event),
    left fd = S j ->
    cleanup_events rimrafSync callback (fileReports (repeat None (S j)) ++ evs)
      (mkTask fd fc dd) w
    = (let '(cs, t1, w1) :=
         cleanup_filesCallback (mkDrainCall None (Cnt (count fd + S j)))
           (mkTask (mkDrain (count fd + S j) 0) fc dd) w in
       let '(cs', t2, w2) := cleanup_events rimrafSync callback evs t1 w1 in
       ((cs ++ cs')%list, t2, w2)).
Proof.
  induction j as [|j IH]; intros fd dd fc w evs Hl.
  - cbn [repeat fileReports map app cleanup_events cleanup_report fileDrain fileCount
           dirDrain].
    unfold cleanupFiles_rimrafCallback. rewrite Hl. cbn [Nat.eqb Nat.sub].
    rewrite Nat.add_1_r. reflexivity.
  - change (repeat None (S (S j))) with (@None Error :: repeat None (S j)).
    cbn [fileReports map app cleanup_events cleanup_report fileDrain fileCount dirDrain].
    unfold cleanupFiles_rimrafCallback at 1. rewrite Hl. cbn [Nat.eqb Nat.sub].
    fold (fileReports (repeat None (S j))).
    rewrite IH by reflexivity. cbn [count].
    replace (S (count fd) + S j) with (count fd + S (S j)) by lia.
    destruct (cleanup_filesCallback _ _ w) as [[cs t1] w1].
    destruct (cleanup_events rimrafSync callback evs t1 w1) as [[cs' t2] w2]. reflexivity.
Qed.

(** The whole of [cleanup] up to the moment its file stage has succeeded,
    for a world with tracking on. *)
Lemma cleanup_after_file_stage (w : @World Disk) (evs : list Event) :
  tracking w = true ->
  exists (t : Task) (w1 : @World Disk),
    settled (fileDrain t) = true /\
    tracking w1 = true /\ dirsToDelete w1 = dirsToDelete w /\
    cleanup_calls rimrafSync callback
      (fileReports (repeat None (List.length (filesToDelete w))) ++ evs) w
    = (let '(cs, t1, w2) :=
         cleanup_filesCallback
           (mkDrainCall None (Cnt (List.length (filesToDelete w)))) t w1 in
       let '(cs', _, _) := cleanup_events rimrafSync callback evs t1 w2 in
       (cs ++ cs')%list).
Proof.
  intros Ht. unfold cleanup_calls, cleanup, cleanupFiles. rewrite Ht. cbn [negb].
  destruct (filesToDelete w) as [|q rest] eqn:Hl.
  - exists idle, w. cbn [List.length Nat.eqb repeat fileReports map app].
    split; [reflexivity|]. split; [exact Ht|]. split; [reflexivity|].
    destruct (cleanup_filesCallback _ idle w) as [[cs t1] w2]. reflexivity.
  - cbn [List.length Nat.eqb]. rewrite <- Hl.
    exists (mkTask (mkDrain (0 + S (List.length rest)) 0) CntUndefined (mkDrain 0 0)),
           (dispatchFiles (filesToDelete w) w).
    split; [reflexivity|].
    destruct (dispatchFiles_flags (filesToDelete w) w) as (Ht1 & _).
    destruct (dispatchFiles_effect (filesToDelete w) w eq_refl) as (_ & Hd & _).
    split; [congruence|]. split; [exact Hd|].
    rewrite file_reports_all_removed by reflexivity. cbn [count app].
    destruct (cleanup_filesCallback _ _ _) as [[cs t1] w2].
    destruct (cleanup_events rimrafSync callback evs t1 w2) as [[cs' t2] w3]. reflexivity.
Qed.

(** X8. With tracking on, when every file removal and then every directory
    removal reports success, [cleanup] calls back exactly once, without
    error and with both list lengths.  Either list may be empty, and the
    callback may return or throw. *)
Theorem cleanup_success_reports_both_counts (w : @World Disk) :
  tracking w = true ->
  cleanup_calls rimrafSync callback
    (fileReports (repeat None (List.length (filesToDelete w)))
       ++ dirReports (repeat None (List.length (dirsToDelete w)))) w
  = [mkCleanupCall None
       (Some (mkStats (Cnt (List.length (filesToDelete w)))
                      (Cnt (List.length (dirsToDelete w)))))].
Proof.
  intros Ht.
  destruct (cleanup_after_file_stage w
              (dirReports (repeat None (List.length (dirsToDelete w)))) Ht)
    as (t & w1 & Hs & Ht1 & Hd & H).
  rewrite H. clear H. unfold cleanup_filesCallback, cleanupDirs. cbn [drain_err drain_count].
  rewrite Ht1, Hd. cbn [negb].
  destruct (dirsToDelete w) as [|q rest] eqn:Hl.
  - reflexivity.
  - cbn [List.length Nat.eqb]. destruct t as [fd fc dd].
    rewrite dir_reports_deliver. cbn [fileDrain].
    match goal with
    | |- context [deliver (cleanupDirs_rimrafCallback ?f)] =>
        change (cleanupDirs_rimrafCallback f) with (rimrafCallback_with Cnt f)
    end.
    rewrite deliver_all_removed by reflexivity. reflexivity.
Qed.

(** X9. With tracking on, when every file removal succeeds and a directory
    removal fails after [k] others succeeded, the first call that [cleanup]
    makes of its callback carries that error, the full file count and the
    directory count [k]; when the callback returns from it, it is the only
    call, whatever is reported later. *)
Theorem cleanup_dir_error_keeps_both_counts
        (w : @World Disk) (k : nat) (e : Error) (later : list (option Error)) :
  tracking w = true ->
  k < List.length (dirsToDelete w) ->
  hd_error
    (cleanup_calls rimrafSync callback
       (fileReports (repeat None (List.length (filesToDelete w)))
          ++ dirReports (repeat None k ++ Some e :: later)) w)
  = Some (mkCleanupCall (Some e)
            (Some (mkStats (Cnt (List.length (filesToDelete w))) (Cnt k)))) /\
  (callback (mkCleanupCall (Some e)
               (Some (mkStats (Cnt (List.length (filesToDelete w))) (Cnt k))))
   = Returns ->
   cleanup_calls rimrafSync callback
     (fileReports (repeat None (List.length (filesToDelete w)))
        ++ dirReports (repeat None k ++ Some e :: later)) w
   = [mkCleanupCall (Some e)
        (Some (mkStats (Cnt (List.length (filesToDelete w))) (Cnt k)))]).
Proof.
  intros Ht Hk.
  destruct (cleanup_after_file_stage w
              (dirReports (repeat None k ++ Some e :: later)) Ht)
    as (t & w1 & Hs & Ht1 & Hd & H).
  rewrite H. clear H. unfold cleanup_filesCallback, cleanupDirs. cbn [drain_err drain_count].
  rewrite Ht1, Hd. cbn [negb].
  destruct (dirsToDelete w) as [|q rest] eqn:Hl; [simpl in Hk; lia|].
  cbn [List.length Nat.eqb]. destruct t as [fd fc dd].
  rewrite dir_reports_deliver. cbn [fileDrain app].
  match goal with
  | |- context [deliver (cleanupDirs_rimrafCallback ?f)] =>
      change (cleanupDirs_rimrafCallback f) with (rimrafCallback_with Cnt f)
  end.
  split.
  - match goal with
    | |- context [deliver (rimrafCallback_with Cnt ?g) ?r ?d] =>
        pose proof (deliver_first_error_first Cnt g e later k d Hk) as Hh;
        destruct (deliver (rimrafCallback_with Cnt g) r d) as [cs d']
    end.
    cbn [fst] in *. destruct cs as [|c cs]; [discriminate Hh|].
    inversion Hh; subst. reflexivity.
  - intros Hret. rewrite deliver_first_error by (try exact Hk; exact Hret). reflexivity.
Qed.

(** X10. When [track(false)] is called while the file stage of a [cleanup]
    is in flight, the directory stage is refused: after the last file
    report [cleanup] calls back once with the error "not tracking", the file
    count, and no directory count. *)
Theorem cleanup_refuses_dir_stage_when_tracking_is_turned_off (w : @World Disk) :
  tracking w = true ->
  filesToDelete w <> [] ->
  cleanup_calls rimrafSync callback
    (Called (CallTrack (JBoolean false))
       :: fileReports (repeat None (List.length (filesToDelete w)))) w
  = [mkCleanupCall (Some notTracking)
       (Some (mkStats (Cnt (List.length (filesToDelete w))) CntUndefined))].
Proof.
  intros Ht Hne. unfold cleanup_calls, cleanup, cleanupFiles. rewrite Ht. cbn [negb].
  destruct (filesToDelete w) as [|q rest] eqn:Hl; [congruence|].
  cbn [List.length Nat.eqb cleanup_events step]. rewrite <- Hl.
  rewrite <- (app_nil_r (fileReports _)).
  rewrite file_reports_all_removed by reflexivity. reflexivity.
Qed.

End Stages.

Lemma cleanup_success_reports_both_counts_witness :
  cleanup_calls Sample.rimrafSync (fun _ => Throws)
    [Reported (FileRemoval None); Reported (FileRemoval None);
     Reported (DirRemoval None)] Sample.busy
  = [mkCleanupCall None (Some (mkStats (Cnt 2) (Cnt 1)))].
Proof.
  exact (cleanup_success_reports_both_counts Sample.rimrafSync (fun _ => Throws)
           Sample.busy eq_refl).
Defined.

Lemma cleanup_dir_error_keeps_both_counts_witness :
  cleanup_calls Sample.rimrafSync alwaysReturns
    [Reported (FileRemoval None); Reported (FileRemoval None);
     Reported (DirRemoval None); Reported (DirRemoval (Some Sample.EACCES));
     Reported (DirRemoval None)]
    (deleteDirOnExit "/tmp/d-3" (deleteDirOnExit "/tmp/d-2" Sample.busy))
  = [mkCleanupCall (Some Sample.EACCES) (Some (mkStats (Cnt 2) (Cnt 1)))].
Proof.
  refine (proj2 (cleanup_dir_error_keeps_both_counts Sample.rimrafSync alwaysReturns
                   (deleteDirOnExit "/tmp/d-3" (deleteDirOnExit "/tmp/d-2" Sample.busy))
                   1 Sample.EACCES [None] eq_refl _) eq_refl).
  simpl. lia.
Defined.

Lemma cleanup_refuses_dir_stage_when_tracking_is_turned_off_witness :
  cleanup_calls Sample.rimrafSync alwaysReturns
    [Called (CallTrack (JBoolean false));
     Reported (FileRemoval None); Reported (FileRemoval None)] Sample.busy
  = [mkCleanupCall (Some (mkError "not tracking"))
       (Some (mkStats (Cnt 2) CntUndefined))].
Proof.
  refine (cleanup_refuses_dir_stage_when_tracking_is_turned_off
            Sample.rimrafSync alwaysReturns Sample.busy eq_refl _).
  discriminate.
Defined.

(** ** Promise style *)
Section Promises.

(** Calls of a [promiseCallback] only queue functions for the next tick. *)
Lemma promiseCallback_queue {A C : Type} (err : C -> option Error) (args : C -> list A)
      (cs : list C) :
  forall p : Deferred A,
    fold_left (fun p c => promiseCallback (err c) (args c) p) cs p
    = mkDeferred (outcome p)
                 (nextTicks p ++ map (fun c => nextTickBody (err c) (args c)) cs).
Proof.
  induction cs as [|c rest IH]; intros p; simpl.
  - rewrite app_nil_r. destruct p; reflexivity.
  - rewrite IH. simpl. rewrite <- app_assoc. reflexivity.
Qed.

Lemma settle_settled {A : Type} (ticks : list (Settlement A)) (s : Settlement A) :
  fold_left (fun o t => settle t o) ticks (Some s) = Some s.
Proof. induction ticks as [|t rest IH]; simpl; [reflexivity | exact IH]. Qed.

Lemma runTicks_first {A : Type} (ticks : list (Settlement A)) :
  outcome (runTicks (mkDeferred None ticks)) = hd_error ticks.
Proof.
  unfold runTicks. simpl. destruct ticks as [|t rest]; simpl; [reflexivity|].
  apply settle_settled.
Qed.

(** In promise style the two [rimrafCallback]s ask for the same settlement
    and leave the same drain. *)
Lemma rimrafCallback_ticks_agree (g1 g2 : nat -> JsCount) (err : option Error)
      (d : Drain) :
  option_map (fun c => nextTickBody (drain_err c) (drain_args c))
             (fst (rimrafCallback_with g1 alwaysReturns err d))
  = option_map (fun c => nextTickBody (drain_err c) (drain_args c))
               (fst (rimrafCallback_with g2 alwaysReturns err d)) /\
  snd (rimrafCallback_with g1 alwaysReturns err d)
  = snd (rimrafCallback_with g2 alwaysReturns err d).
Proof.
  unfold rimrafCallback_with, alwaysReturns.
  destruct (left d =? 0)%nat; [split; reflexivity|].
  destruct err as [e|]; [split; reflexivity|].
  cbv zeta. destruct (left d - 1 =? 0)%nat; split; reflexivity.
Qed.

Lemma deliver_ticks_agree (g1 g2 : nat -> JsCount) (reports : list (option Error)) :
  forall d,
    map (fun c => nextTickBody (drain_err c) (drain_args c))
        (fst (deliver (rimrafCallback_with g1 alwaysReturns) reports d))
    = map (fun c => nextTickBody (drain_err c) (drain_args c))
          (fst (deliver (rimrafCallback_with g2 alwaysReturns) reports d)) /\
    snd (deliver (rimrafCallback_with g1 alwaysReturns) reports d)
    = snd (deliver (rimrafCallback_with g2 alwaysReturns) reports d).
Proof.
  induction reports as [|err rest IH]; intros d; [split; reflexivity|].
  cbn [deliver].
  destruct (rimrafCallback_ticks_agree g1 g2 err d) as [Hc Hd].
  destruct (rimrafCallback_with g1 alwaysReturns err d) as [c1 d1].
  destruct (rimrafCallback_with g2 alwaysReturns err d) as [c2 d2].
  cbn [fst snd] in Hc, Hd. subst d2.
  destruct (IH d1) as [H1 H2].
  destruct (deliver (rimrafCallback_with g1 alwaysReturns) rest d1) as [cs1 e1].
  destruct (deliver (rimrafCallback_with g2 alwaysReturns) rest d1) as [cs2 e2].
  cbn [fst snd] in *. split; [|exact H2].
  destruct c1 as [c1|], c2 as [c2|]; cbn [option_map] in Hc; try discriminate Hc.
  - cbn [map]. inversion Hc. rewrite H1. reflexivity.
  - exact H1.
Qed.

(** X11. A promise made by [promisify] is still pending when the calls of
    its [promiseCallback] have returned; once the event loop has run the
    queued functions it is settled as the first call asked, and later calls
    change nothing.  [cleanup] queues at most one such function. *)
Theorem promise_settles_on_a_later_tick_as_first_called {Disk : Type}
        (rimrafSync : string -> Disk -> option Error * Disk) (w : @World Disk)
        (evs : list Event) (ds : list DrainCall) (cs : list CleanupCall) :
  (outcome (drain_promise ds) = None /\
   outcome (runTicks (drain_promise ds))
   = hd_error (map (fun c => nextTickBody (drain_err c) (drain_args c)) ds)) /\
  (outcome (cleanup_promise cs) = None /\
   outcome (runTicks (cleanup_promise cs))
   = hd_error (map (fun c => nextTickBody (cleanup_err c) (cleanup_args c)) cs)) /\
  List.length
    (nextTicks (cleanup_promise (cleanup_calls rimrafSync alwaysReturns evs w))) <= 1.
Proof.
  unfold drain_promise, cleanup_promise. rewrite !promiseCallback_queue.
  unfold newPromise. cbn [outcome nextTicks app].
  split; [split; [reflexivity | apply runTicks_first]|].
  split; [split; [reflexivity | apply runTicks_first]|].
  rewrite length_map. apply cleanup_once. reflexivity.
Qed.

(** X12. In promise style [cleanupFiles()] and [cleanupDirs()] cannot be
    told apart by their reports: on an error both promises are rejected
    with the error alone, so the count that [cleanupDirs] hands to a
    callback is not delivered. *)
Theorem promise_style_drains_agree (reports : list (option Error)) (d : Drain) :
  drain_promise (fst (deliver (cleanupFiles_rimrafCallback alwaysReturns) reports d))
  = drain_promise (fst (deliver (cleanupDirs_rimrafCallback alwaysReturns) reports d)).
Proof.
  unfold drain_promise. rewrite !promiseCallback_queue.
  change (cleanupFiles_rimrafCallback alwaysReturns)
    with (rimrafCallback_with (fun _ => CntUndefined) alwaysReturns).
  change (cleanupDirs_rimrafCallback alwaysReturns)
    with (rimrafCallback_with Cnt alwaysReturns).
  destruct (deliver_ticks_agree (fun _ => CntUndefined) Cnt reports d) as [H _].
  rewrite H. reflexivity.
Qed.

End Promises.

(** ** Generated names *)
Section Names.

Variable path_join : string -> string -> string.
Variable dir : string.
Variable pid : nat.
Variable random36 : string.
Variable ToStringOther : JsValue -> Result string.
Variable pathArgError : JsValue -> Error.

(** X13. The default prefix is used exactly for a falsy argument.  A falsy
    [rawAffixes], the empty string included, gives the name that an absent
    argument gives; a truthy one gives a name in which the default prefix
    plays no part, also when it is an object without a prefix. *)
Theorem default_prefix_is_for_falsy_affixes_only
        (now : DateParts) (rawAffixes : JsValue) (defaultPrefix other : option string) :
  (ToBoolean rawAffixes = false ->
   generateName path_join dir now pid random36 ToStringOther pathArgError rawAffixes defaultPrefix
   = generateName path_join dir now pid random36 ToStringOther pathArgError JUndefined defaultPrefix) /\
  (ToBoolean rawAffixes = true ->
   generateName path_join dir now pid random36 ToStringOther pathArgError rawAffixes defaultPrefix
   = generateName path_join dir now pid random36 ToStringOther pathArgError rawAffixes other).
Proof.
  unfold generateName, parseAffixes. split; intros Hb; rewrite Hb; reflexivity.
Qed.

(** X14. The month (counted from 0) and the day are written without
    padding, so the date part of a name does not tell dates apart: the
    days 11 to 19 of February (month 1) give the names of the days 1 to 9
    of December (month 11). *)
Theorem unpadded_dates_collide
        (year k : nat) (rawAffixes : JsValue) (defaultPrefix : option string) :
  1 <= k <= 9 ->
  generateName path_join dir (mkDate year 1 (10 + k)) pid random36
    ToStringOther pathArgError rawAffixes defaultPrefix
  = generateName path_join dir (mkDate year 11 k) pid random36
      ToStringOther pathArgError rawAffixes defaultPrefix.
Proof.
  intros Hk. unfold generateName.
  destruct (parseAffixes rawAffixes defaultPrefix) as [affixes|e]; [|reflexivity].
  destruct (joinItem ToStringOther (affix_prefix affixes)) as [prefix|e]; [|reflexivity].
  destruct (joinItem ToStringOther (affix_suffix affixes)) as [suffix|e]; [|reflexivity].
  destruct (dirOrDefault dir affixes);
    do 10 (destruct k as [|k]; [reflexivity|]); lia.
Qed.

End Names.

Lemma default_prefix_is_for_falsy_affixes_only_witness :
  generateName Sample.path_join "/tmp" Sample.now 4242 "1z141z4"
    Sample.ToStringOther Sample.pathArgError (JString "") (Some "f-")
  = Ret "/tmp/f-2024015-4242-1z141z4" /\
  generateName Sample.path_join "/tmp" Sample.now 4242 "1z141z4"
    Sample.ToStringOther Sample.pathArgError
    (JObject JUndefined (JString ".tmp") JUndefined) (Some "f-")
  = Ret "/tmp/2024015-4242-1z141z4.tmp".
Proof.
  destruct (default_prefix_is_for_falsy_affixes_only Sample.path_join "/tmp" 4242
              "1z141z4" Sample.ToStringOther Sample.pathArgError Sample.now (JString "") (Some "f-") None) as [H _].
  destruct (default_prefix_is_for_falsy_affixes_only Sample.path_join "/tmp" 4242
              "1z141z4" Sample.ToStringOther Sample.pathArgError Sample.now (JObject JUndefined (JString ".tmp") JUndefined)
              (Some "f-") None) as [_ H'].
  split.
  - rewrite (H eq_refl). reflexivity.
  - rewrite (H' eq_refl). reflexivity.
Defined.

Lemma unpadded_dates_collide_witness :
  generateName Sample.path_join "/tmp" (mkDate 2024 1 11) 4242 "1z141z4"
    Sample.ToStringOther Sample.pathArgError
    JUndefined (Some "d-")
  = generateName Sample.path_join "/tmp" (mkDate 2024 11 1) 4242 "1z141z4"
      Sample.ToStringOther Sample.pathArgError
      JUndefined (Some "d-").
Proof.
  refine (unpadded_dates_collide Sample.path_join "/tmp" 4242 "1z141z4"
            Sample.ToStringOther Sample.pathArgError 2024 1 JUndefined (Some "d-") _).
  lia.
Defined.

(** ** Synchronous factories and cleanups in sequence *)
Section SyncFactories.

Context {Disk : Type}.
Variable rimrafSync : string -> Disk -> option Error * Disk.
Variable mkdirpSync : string -> Disk -> option Error * Disk.
Variable fsOpenSync : string -> Disk -> (Error + nat) * Disk.
Variable path_join : string -> string -> string.
Variable dir : string.
Variable ToStringOther : JsValue -> Result string.
Variable pathArgError : JsValue -> Error.

(** X15. [mkdirSync] and [openSync] register exactly on success.  When
    either throws (a bad affix argument or a failure of the collaborator)
    both lists are as before; when it returns a path, that path is the
    generated name and it has been appended to the directory list
    ([mkdirSync]) or the file list ([openSync]) if tracking is on, and to
    neither if tracking is off. *)
Theorem sync_factories_register_exactly_on_success
        (now : DateParts) (pid : nat) (random36 : string) (affixes : JsValue)
        (w : @World Disk) :
  match mkdirSync mkdirpSync path_join dir ToStringOther pathArgError now pid random36 affixes w with
  | (Throw _, w') =>
      filesToDelete w' = filesToDelete w /\ dirsToDelete w' = dirsToDelete w
  | (Ret dirPath, w') =>
      generateName path_join dir now pid random36 ToStringOther pathArgError affixes (Some "d-") = Ret dirPath /\
      filesToDelete w' = filesToDelete w /\
      dirsToDelete w'
      = (if tracking w then dirsToDelete w ++ [dirPath] else dirsToDelete w)%list
  end /\
  match openSync fsOpenSync path_join dir ToStringOther pathArgError now pid random36 affixes w with
  | (Throw _, w') =>
      filesToDelete w' = filesToDelete w /\ dirsToDelete w' = dirsToDelete w
  | (Ret file, w') =>
      generateName path_join dir now pid random36 ToStringOther pathArgError affixes (Some "f-") = Ret (path file) /\
      dirsToDelete w' = dirsToDelete w /\
      filesToDelete w'
      = (if tracking w then filesToDelete w ++ [path file] else filesToDelete w)%list
  end.
Proof.
  unfold mkdirSync, openSync. split.
  - destruct (generateName path_join dir now pid random36 ToStringOther pathArgError affixes (Some "d-"))
      as [dirPath|e]; [|split; reflexivity].
    destruct (mkdirpSync dirPath (disk w)) as [[e|] d]; [split; reflexivity|].
    split; [reflexivity|].
    destruct w as [[|] [|] fs ds ls rs ws dk]; split; reflexivity.
  - destruct (generateName path_join dir now pid random36 ToStringOther pathArgError affixes (Some "f-"))
      as [filePath|e]; [|split; reflexivity].
    destruct (fsOpenSync filePath (disk w)) as [[e|n] d]; [split; reflexivity|].
    split; [reflexivity|].
    destruct w as [[|] [|] fs ds ls rs ws dk]; split; reflexivity.
Qed.

(** X16. With tracking on, once [cleanupFiles] and [cleanupDirs] have
    dispatched, rimraf has been given one request for each entry that was
    pending, files first, and a [cleanupSync] that follows while those
    removals are in flight returns [{files: 0, dirs: 0}] and requests
    nothing more. *)
Theorem cleanupSync_after_dispatch_finds_nothing (w : @World Disk) :
  tracking w = true ->
  removals (snd (cleanupDirs (snd (cleanupFiles w))))
  = (removals w ++ map Rimraf (filesToDelete w) ++ map Rimraf (dirsToDelete w))%list /\
  cleanupSync rimrafSync (snd (cleanupDirs (snd (cleanupFiles w))))
  = (Ret (Val (mkStats (Cnt 0) (Cnt 0))), snd (cleanupDirs (snd (cleanupFiles w)))).
Proof.
  intros Ht.
  assert (H1 : tracking (snd (cleanupFiles w)) = true /\
               filesToDelete (snd (cleanupFiles w)) = [] /\
               dirsToDelete (snd (cleanupFiles w)) = dirsToDelete w /\
               removals (snd (cleanupFiles w))
               = (removals w ++ map Rimraf (filesToDelete w))%list).
  { unfold cleanupFiles. rewrite Ht. cbn [negb].
    destruct (filesToDelete w) as [|q rest] eqn:Hl.
    - simpl. rewrite app_nil_r. auto.
    - cbn [List.length Nat.eqb snd]. rewrite <- Hl.
      destruct (dispatchFiles_flags (filesToDelete w) w) as (Ht' & _).
      destruct (dispatchFiles_effect (filesToDelete w) w eq_refl) as (Hf & Hd & Hr & _).
      split; [congruence|]. split; [exact Hf|]. split; [exact Hd | exact Hr]. }
  destruct H1 as (Ht1 & Hf1 & Hd1 & Hr1). set (w1 := snd (cleanupFiles w)) in *.
  assert (H2 : tracking (snd (cleanupDirs w1)) = true /\
               filesToDelete (snd (cleanupDirs w1)) = [] /\
               dirsToDelete (snd (cleanupDirs w1)) = [] /\
               removals (snd (cleanupDirs w1))
               = (removals w1 ++ map Rimraf (dirsToDelete w1))%list).
  { unfold cleanupDirs. rewrite Ht1. cbn [negb].
    destruct (dirsToDelete w1) as [|q rest] eqn:Hl.
    - simpl. rewrite app_nil_r. auto.
    - cbn [List.length Nat.eqb snd]. rewrite <- Hl.
      destruct (dispatchDirs_flags (dirsToDelete w1) w1) as (Ht' & _).
      destruct (dispatchDirs_effect (dirsToDelete w1) w1 eq_refl) as (Hd & Hf & Hr & _).
      split; [congruence|]. split; [congruence|]. split; [exact Hd | exact Hr]. }
  destruct H2 as (Ht2 & Hf2 & Hd2 & Hr2).
  split.
  - rewrite Hr2, Hr1, Hd1, <- app_assoc. reflexivity.
  - apply cleanupSync_nothing_pending; assumption.
Qed.

End SyncFactories.

Lemma cleanupSync_after_dispatch_finds_nothing_witness :
  removals (snd (cleanupSync Sample.rimrafSync
                   (snd (cleanupDirs (snd (cleanupFiles Sample.busy))))))
  = [Rimraf "/tmp/f-1"; Rimraf "/tmp/f-2"; Rimraf "/tmp/d-1"].
Proof.
  exact (f_equal (fun r => removals (snd r))
           (proj2 (cleanupSync_after_dispatch_finds_nothing Sample.rimrafSync
                     Sample.busy eq_refl))).
Defined.
